(** * The voice assistant of [main.py]: question classifier, turn controller
      and facade, as a shallow embedding.

    Python [str] values are modelled as [string]; a character stands for the
    code point with the same number, so the model covers the texts whose code
    points are below 256.  [lower], [strip] and the regular expression class
    [\s] follow CPython on that range.  [upper] does too, except for U+00B5
    and U+00FF, whose upper-case forms lie outside the range: they are left
    unchanged, and a statement about the upper-cased text excludes them.

    Time stamps ([time.time()]) are rationals; the rounding of the float
    subtraction in the guard is not modelled. *)

From Stdlib Require Import String Ascii List Bool NArith ZArith QArith Lia Lqa.
Import ListNotations.
Local Open Scope string_scope.

(** ** Python string primitives *)

Module Py.

Definition code (c : ascii) : N := N_of_ascii c.

Definition between (lo hi : N) (c : ascii) : bool :=
  ((lo <=? code c) && (code c <=? hi))%N.

(** [str.isspace] on one character, also the set [str.strip()] removes and
    the class [\s] of a [str] pattern. *)
Definition isspace (c : ascii) : bool :=
  between 9 13 c || between 28 32 c || (code c =? 133)%N || (code c =? 160)%N.

Definition lower_char (c : ascii) : ascii :=
  if between 65 90 c || (between 192 222 c && negb (code c =? 215)%N)
  then ascii_of_N (code c + 32)
  else c.

(** [c.upper()] for a one-character string; the result may be longer.  For
    U+00B5 and U+00FF the upper-case form (U+039C, U+0178) is no character of
    the model, and the result given here is not the code's. *)
Definition upper_char (c : ascii) : string :=
  if between 97 122 c || (between 224 254 c && negb (code c =? 247)%N)
  then String (ascii_of_N (code c - 32)) ""
  else if (code c =? 223)%N then "SS"
  else String c "".

Fixpoint lower (s : string) : string :=
  match s with
  | "" => ""
  | String c r => String (lower_char c) (lower r)
  end.

Fixpoint rev_onto (s acc : string) : string :=
  match s with
  | "" => acc
  | String c r => rev_onto r (String c acc)
  end.

Definition rev (s : string) : string := rev_onto s "".

Fixpoint lstrip (s : string) : string :=
  match s with
  | "" => ""
  | String c r => if isspace c then lstrip r else s
  end.

Definition rstrip (s : string) : string := rev (lstrip (rev s)).

Definition strip (s : string) : string := rstrip (lstrip s).

(** [text.startswith(p)] *)
Definition startswith (text p : string) : bool := String.prefix p text.

(** [text.endswith(p)] *)
Definition endswith (text p : string) : bool := String.prefix (rev p) (rev text).

(** [p in text] *)
Fixpoint contains (text p : string) : bool :=
  String.prefix p text ||
  match text with
  | "" => false
  | String _ r => contains r p
  end.

(** [any(f(x) for x in l)] *)
Definition any {A} (f : A -> bool) (l : list A) : bool := existsb f l.

End Py.

(** ** Exceptions and results of calls that may raise *)

Inductive exn_class :=
| WaitTimeoutError      (* sr.WaitTimeoutError *)
| UnknownValueError     (* sr.UnknownValueError *)
| OtherException.       (* every other subclass of Exception *)

(** An exception: its class and [str(e)]. *)
Record exn := Exn { exn_cls : exn_class; exn_str : string }.

Inductive outcome (A : Type) :=
| Returned (a : A)
| Raised (e : exn).
Arguments Returned {A} a.
Arguments Raised {A} e.

(** ** The question classifier *)

Module Classifier.
Import Py.

Definition question_starters : list string :=
  [ "what"; "why"; "how"; "when"; "where"; "who"; "which";
    "can"; "could"; "would"; "should"; "is"; "are"; "do"; "does";
    "am"; "was"; "were"; "have"; "has"; "had"; "will"; "shall" ].

(** The alternatives of the group in
    [^(are|can|could|do|does|have|has|will|shall|should|would|am|is)\s]. *)
Definition inverted_auxiliaries : list string :=
  [ "are"; "can"; "could"; "do"; "does"; "have"; "has"; "will"; "shall";
    "should"; "would"; "am"; "is" ].

Definition question_phrases : list string :=
  [ "tell me about"; "i'd like to know"; "can you explain";
    "i was wondering"; "do you know"; "what about"; "how about" ].

(** One alternative of the group, then [\s]. *)
Definition word_then_space (text w : string) : bool :=
  startswith text w &&
  match String.get (String.length w) text with
  | Some c => isspace c
  | None => false
  end.

(** [re.match] of the pattern above: the matcher backtracks over the
    alternatives, so it succeeds when one of them is followed by [\s]. *)
Definition re_match_inverted (text : string) : bool :=
  any (word_then_space text) inverted_auxiliaries.

(** The text the rules look at: [text.lower().strip()]. *)
Definition normalized (text : string) : string := strip (lower text).

Definition rule_starter (t : string) : bool := any (startswith t) question_starters.
Definition rule_mark (t : string) : bool := endswith t "?".
Definition rule_phrase (t : string) : bool := any (contains t) question_phrases.

Definition is_question (text : string) : bool :=
  let text := normalized text in
  if rule_starter text then true
  else if rule_mark text then true
  else if re_match_inverted text then true
  else if rule_phrase text then true
  else false.

(** The classifier with the regular-expression rule folded away; compared
    with [is_question] below. *)
Definition is_question_without_regex (text : string) : bool :=
  let text := normalized text in
  if rule_starter text then true
  else if rule_mark text then true
  else if rule_phrase text then true
  else false.

End Classifier.

(** ** Normalisation of an accepted transcript (lines 86 to 88) *)

Module Normalize.
Import Py.

Definition IndexError : exn := Exn OtherException "string index out of range".

(** [text[0].upper() + text[1:]] *)
Definition capitalize (text : string) : outcome string :=
  match text with
  | "" => Raised IndexError
  | String c r => Returned (upper_char c ++ r)
  end.

Definition ensure_mark (t : string) : string :=
  if negb (endswith t "?") then t ++ "?" else t.

Definition capitalized_text (text : string) : outcome string :=
  match capitalize text with
  | Returned t => Returned (ensure_mark t)
  | Raised e => Raised e
  end.

End Normalize.

(** ** [json.dumps] and [base64.b64encode], as far as [get_ai_response]
    uses them *)

Module Json.
Import Py.

Definition backslash : ascii := "092"%char.
Definition dquote : ascii := "034"%char.

Definition hex_digit (n : N) : ascii :=
  if (n <? 10)%N then ascii_of_N (48 + n) else ascii_of_N (87 + n).

(** ['\\u{0:04x}'.format(n)] for [n < 256] *)
Definition u_escape (n : N) : string :=
  String backslash
    (String "u" (String "0" (String "0"
      (String (hex_digit (n / 16)) (String (hex_digit (n mod 16)) ""))))).

(** [ensure_ascii=True]: everything outside [' '..'~'], the quote and the
    backslash are escaped. *)
Definition escape_char (c : ascii) : string :=
  let n := code c in
  if (n =? 34)%N then String backslash (String dquote "")
  else if (n =? 92)%N then String backslash (String backslash "")
  else if (n =? 8)%N then String backslash "b"
  else if (n =? 12)%N then String backslash "f"
  else if (n =? 10)%N then String backslash "n"
  else if (n =? 13)%N then String backslash "r"
  else if (n =? 9)%N then String backslash "t"
  else if between 32 126 c then String c ""
  else u_escape n.

Fixpoint escape (s : string) : string :=
  match s with
  | "" => ""
  | String c r => escape_char c ++ escape r
  end.

Definition quoted (s : string) : string :=
  String dquote (escape s ++ String dquote "").

Definition key (k : string) : string := String dquote (k ++ String dquote "").

(** [json.dumps({"text": text, "audio": audio})] *)
Definition dumps_answer (text : string) (audio : option string) : string :=
  "{" ++ key "text" ++ ": " ++ quoted text ++ ", " ++ key "audio" ++ ": " ++
  match audio with
  | Some a => quoted a
  | None => "null"
  end ++ "}".

End Json.

Module Base64.

Definition digit (n : N) : ascii :=
  if (n <? 26)%N then ascii_of_N (65 + n)
  else if (n <? 52)%N then ascii_of_N (97 + (n - 26))
  else if (n <? 62)%N then ascii_of_N (48 + (n - 52))
  else if (n =? 62)%N then "+"%char
  else "/"%char.

Definition group (n : N) (k : nat) : string :=
  let d i := digit ((n / i) mod 64) in
  match k with
  | 1%nat => String (d 262144%N) (String (d 4096%N) "==")
  | 2%nat => String (d 262144%N) (String (d 4096%N) (String (d 64%N) "="))
  | _ => String (d 262144%N) (String (d 4096%N) (String (d 64%N) (String (d 1%N) "")))
  end.

(** [base64.b64encode(content).decode('utf-8')] *)
Fixpoint b64encode (content : list Byte.byte) : string :=
  let v := Byte.to_N in
  match content with
  | [] => ""
  | [a] => group (v a * 65536) 1
  | [a; b] => group (v a * 65536 + v b * 256) 2
  | a :: b :: c :: r => group (v a * 65536 + v b * 256 + v c) 3 ++ b64encode r
  end.

End Base64.

(** ** Session state *)

(** The client object built by [OpenAI(api_key=...)]; it is truthy. *)
Inductive OpenAI := OpenAI_client (api_key : option string).

(** The attributes of [AudioAssistant] the methods read and write, and the
    content of [config.json]: [None] when the file is absent, otherwise what
    [config.get('api_key')] gives.  Recognizer and microphone carry no state
    of their own here; their calls are answered by the surroundings. *)
Record AudioAssistant := {
  is_listening : bool;
  client : option OpenAI;
  api_key : option string;
  tts_enabled : bool;
  is_speaking : bool;
  audio_playing : bool;
  config_json : option (option string)
}.

Definition set_is_listening (b : bool) (s : AudioAssistant) : AudioAssistant :=
  {| is_listening := b; client := client s; api_key := api_key s;
     tts_enabled := tts_enabled s; is_speaking := is_speaking s;
     audio_playing := audio_playing s; config_json := config_json s |}.

Definition set_client (c : option OpenAI) (s : AudioAssistant) : AudioAssistant :=
  {| is_listening := is_listening s; client := c; api_key := api_key s;
     tts_enabled := tts_enabled s; is_speaking := is_speaking s;
     audio_playing := audio_playing s; config_json := config_json s |}.

Definition set_api_key_field (k : option string) (s : AudioAssistant) : AudioAssistant :=
  {| is_listening := is_listening s; client := client s; api_key := k;
     tts_enabled := tts_enabled s; is_speaking := is_speaking s;
     audio_playing := audio_playing s; config_json := config_json s |}.

Definition set_tts_enabled (b : bool) (s : AudioAssistant) : AudioAssistant :=
  {| is_listening := is_listening s; client := client s; api_key := api_key s;
     tts_enabled := b; is_speaking := is_speaking s;
     audio_playing := audio_playing s; config_json := config_json s |}.

Definition set_is_speaking (b : bool) (s : AudioAssistant) : AudioAssistant :=
  {| is_listening := is_listening s; client := client s; api_key := api_key s;
     tts_enabled := tts_enabled s; is_speaking := b;
     audio_playing := audio_playing s; config_json := config_json s |}.

Definition set_audio_playing (b : bool) (s : AudioAssistant) : AudioAssistant :=
  {| is_listening := is_listening s; client := client s; api_key := api_key s;
     tts_enabled := tts_enabled s; is_speaking := is_speaking s;
     audio_playing := b; config_json := config_json s |}.

Definition set_config_json (f : option (option string)) (s : AudioAssistant) : AudioAssistant :=
  {| is_listening := is_listening s; client := client s; api_key := api_key s;
     tts_enabled := tts_enabled s; is_speaking := is_speaking s;
     audio_playing := audio_playing s; config_json := f |}.

(** ** The methods of the facade

    A method that may raise returns the state it leaves behind together with
    its outcome.  [ctor] is what the constructor [OpenAI(api_key=...)] does in
    the surroundings of the call: [None] when it returns a client, [Some e]
    when it raises [e].  Failures of the file system are not modelled. *)

Module Assistant.

(** The attributes after the assignments of [__init__], before
    [load_api_key]; [setup_audio] is taken to succeed. *)
Definition fresh (file : option (option string)) : AudioAssistant :=
  {| is_listening := false; client := None; api_key := None;
     tts_enabled := true; is_speaking := false; audio_playing := false;
     config_json := file |}.

Definition set_api_key (k : option string) (ctor : option exn) (s : AudioAssistant)
  : AudioAssistant * outcome unit :=
  let s := set_api_key_field k s in
  match ctor with
  | Some e => (s, Raised e)
  | None =>
      let s := set_client (Some (OpenAI_client k)) s in
      (set_config_json (Some k) s, Returned tt)
  end.

Definition load_api_key (ctor : option exn) (s : AudioAssistant)
  : AudioAssistant * outcome unit :=
  match config_json s with
  | Some k => set_api_key k ctor s
  | None => (s, Returned tt)
  end.

(** [AudioAssistant()]: an exception of [load_api_key] leaves no object. *)
Definition init (file : option (option string)) (ctor : option exn)
  : outcome AudioAssistant :=
  match load_api_key ctor (fresh file) with
  | (s, Returned _) => Returned s
  | (_, Raised e) => Raised e
  end.

Definition delete_api_key (s : AudioAssistant) : AudioAssistant :=
  let s := set_api_key_field None s in
  let s := set_client None s in
  match config_json s with
  | Some _ => set_config_json None s
  | None => s
  end.

Definition has_api_key (s : AudioAssistant) : bool :=
  match api_key s with
  | Some _ => true
  | None => false
  end.

(** The result of [toggle_listening]: the state, the value returned and
    whether a thread running [listen_and_process] was started. *)
Record toggled := {
  t_state : AudioAssistant;
  t_returned : bool;
  t_thread_started : bool
}.

Definition toggle_listening (s : AudioAssistant) : toggled :=
  match client s with
  | None => {| t_state := s; t_returned := false; t_thread_started := false |}
  | Some _ =>
      let s := set_is_listening (negb (is_listening s)) s in
      {| t_state := s; t_returned := is_listening s;
         t_thread_started := is_listening s |}
  end.

End Assistant.

(** ** The functions exposed to the front end *)

Inductive call :=
| toggle_listening
| save_api_key (k : option string) (ctor : option exn)
| delete_api_key
| has_api_key
| toggle_tts
| speaking_ended
| audio_playback_started
| audio_playback_ended.

Inductive value := VBool (b : bool) | VNone.

(** What one call of the front end does: the state after it, the value it
    returns, and whether it started a loop thread. *)
Definition exposed (c : call) (s : AudioAssistant) : AudioAssistant * value * bool :=
  match c with
  | toggle_listening =>
      let r := Assistant.toggle_listening s in
      (Assistant.t_state r, VBool (Assistant.t_returned r), Assistant.t_thread_started r)
  | save_api_key k ctor =>
      match Assistant.set_api_key k ctor s with
      | (s, Returned _) => (s, VBool true, false)
      | (s, Raised _) => (s, VBool false, false)
      end
  | delete_api_key => (Assistant.delete_api_key s, VBool true, false)
  | has_api_key => (s, VBool (Assistant.has_api_key s), false)
  | toggle_tts =>
      let s := set_tts_enabled (negb (tts_enabled s)) s in
      (s, VBool (tts_enabled s), false)
  | speaking_ended => (set_is_speaking false s, VNone, false)
  | audio_playback_started => (set_audio_playing true s, VNone, false)
  | audio_playback_ended =>
      (set_is_speaking false (set_audio_playing false s), VNone, false)
  end.

Definition state_after (c : call) (s : AudioAssistant) : AudioAssistant :=
  fst (fst (exposed c s)).

Definition starts_thread (c : call) (s : AudioAssistant) : bool :=
  snd (exposed c s).

(** The state after a sequence of calls, and whether one of them started a
    loop thread. *)
Fixpoint after_calls (cs : list call) (s : AudioAssistant) : AudioAssistant :=
  match cs with
  | [] => s
  | c :: cs => after_calls cs (state_after c s)
  end.


(** ** The turn controller

    The loop runs in a thread of its own.  Everything outside it is the
    surroundings of a pass: the calls the front end makes before the pass reads
    [is_listening], the clock, the microphone, the recogniser, the answer
    service and the display surface.  Calls of the front end that arrive in
    the middle of a pass are not modelled. *)

Inductive event :=
| Clock (t : Q)                       (* time.time() gave t *)
| Sleep (seconds : Q)                 (* time.sleep(seconds) *)
| Listen                              (* with self.mic: recognizer.listen(source, 5, 5) *)
| Recognize                           (* recognizer.recognize_google(audio) *)
| UpdateUI (question answer : string) (* eel.update_ui(question, answer) *)
| ChatRequest (question : string)     (* client.chat.completions.create(...) *)
| SpeechRequest (input : string)      (* client.audio.speech.create(...) *)
| PrintLine (line : string).          (* print(line) *)

Record surroundings := {
  calls_before : list call;
  time_at_guard : Q;
  listen : outcome unit;
  recognize_google : outcome string;
  update_ui_question : outcome unit;
  (* the contents of response.choices, for the question sent *)
  chat_completions : string -> outcome (list (option string));
  (* speech_response.content, for the text sent *)
  audio_speech : string -> outcome (list Byte.byte);
  (* print(...) in the except clause of get_ai_response *)
  print_line : outcome unit;
  update_ui_answer : outcome unit;
  time_at_end : Q;
  update_ui_error : outcome unit
}.

(** What a pass of the loop works on: the shared object, the local
    [last_speak_time], and the calls made so far. *)
Record frame := {
  self : AudioAssistant;
  last_speak_time : Q;
  log : list event
}.

(** State and exceptions. *)
Definition M (A : Type) : Type := frame -> frame * outcome A.

Definition ret {A} (a : A) : M A := fun f => (f, Returned a).

Definition raise {A} (e : exn) : M A := fun f => (f, Raised e).

Definition bind {A B} (m : M A) (k : A -> M B) : M B :=
  fun f =>
    match m f with
    | (f', Returned a) => k a f'
    | (f', Raised e) => (f', Raised e)
    end.

Notation "x <- m ;; k" := (bind m (fun x => k))
  (at level 61, m at next level, right associativity).
Notation "m ;; k" := (bind m (fun _ => k))
  (at level 61, right associativity).

(** [try: m  except Exception as e: h e] *)
Definition try_except {A} (m : M A) (h : exn -> M A) : M A :=
  fun f =>
    match m f with
    | (f', Raised e) => h e f'
    | r => r
    end.

Definition get_self : M AudioAssistant := fun f => (f, Returned (self f)).

Definition get_last : M Q := fun f => (f, Returned (last_speak_time f)).

Definition modify_self (g : AudioAssistant -> AudioAssistant) : M unit :=
  fun f => ({| self := g (self f); last_speak_time := last_speak_time f; log := log f |},
            Returned tt).

Definition set_last (t : Q) : M unit :=
  fun f => ({| self := self f; last_speak_time := t; log := log f |}, Returned tt).

(** A call into the surroundings: it is logged, then returns or raises. *)
Definition external {A} (ev : event) (r : outcome A) : M A :=
  fun f => ({| self := self f; last_speak_time := last_speak_time f;
               log := log f ++ [ev] |}, r).

Definition lift {A} (r : outcome A) : M A := fun f => (f, r).

Module Controller.
Import Py Classifier.

Definition AttributeError (type attr : string) : exn :=
  Exn OtherException ("'" ++ type ++ "' object has no attribute '" ++ attr ++ "'").

(** An exception of [print] in the [except] clause leaves the function. *)
Definition get_ai_response (w : surroundings) (question : string) : M string :=
  try_except
    (s <- get_self ;;
     match client s with
     | None => raise (AttributeError "NoneType" "chat")
     | Some _ =>
         choices <- external (ChatRequest question) (chat_completions w question) ;;
         match choices with
         | [] => raise (Exn OtherException "list index out of range")
         | None :: _ => raise (AttributeError "NoneType" "strip")
         | Some content :: _ =>
             let text_response := strip content in
             s <- get_self ;;
             if tts_enabled s then
               speech_response <-
                 external (SpeechRequest text_response) (audio_speech w text_response) ;;
               let audio_base64 := Base64.b64encode speech_response in
               ret (Json.dumps_answer text_response (Some audio_base64))
             else ret (Json.dumps_answer text_response None)
         end
     end)
    (fun e =>
       external (PrintLine ("Error in get_ai_response: " ++ exn_str e)) (print_line w) ;;
       ret (Json.dumps_answer ("Error getting AI response: " ++ exn_str e) None)).

(** The ways the round trip to the answer service can fail, with the
    exception each one raises inside the [try] of [get_ai_response]. *)
Inductive round_trip_fails (s : AudioAssistant) (w : surroundings) (question : string)
  : exn -> Prop :=
| no_client :
    client s = None ->
    round_trip_fails s w question (AttributeError "NoneType" "chat")
| chat_raises c e :
    client s = Some c ->
    chat_completions w question = Raised e ->
    round_trip_fails s w question e
| no_choice c :
    client s = Some c ->
    chat_completions w question = Returned [] ->
    round_trip_fails s w question (Exn OtherException "list index out of range")
| no_content c cs :
    client s = Some c ->
    chat_completions w question = Returned (None :: cs) ->
    round_trip_fails s w question (AttributeError "NoneType" "strip")
| speech_raises c content cs e :
    client s = Some c ->
    chat_completions w question = Returned (Some content :: cs) ->
    tts_enabled s = true ->
    audio_speech w (strip content) = Raised e ->
    round_trip_fails s w question e.

Definition cooldown_time : Q := 2.

Definition Qltb (a b : Q) : bool := negb (Qle_bool b a).

(** [not self.is_speaking and not self.audio_playing and
     (current_time - last_speak_time) > cooldown_time] *)
Definition guard (s : AudioAssistant) (current_time last : Q) : bool :=
  negb (is_speaking s) && negb (audio_playing s) &&
  Qltb cooldown_time (current_time - last).

(** The body of the [try]. *)
Definition attempt (w : surroundings) : M unit :=
  external Listen (listen w) ;;
  text <- external Recognize (recognize_google w) ;;
  if is_question text then
    capitalized_text <- lift (Normalize.capitalized_text text) ;;
    external (UpdateUI ("Q: " ++ capitalized_text) "") (update_ui_question w) ;;
    modify_self (set_is_speaking true) ;;
    response <- get_ai_response w capitalized_text ;;
    external (UpdateUI "" response) (update_ui_answer w) ;;
    modify_self (set_is_speaking false) ;;
    t <- external (Clock (time_at_end w)) (Returned (time_at_end w)) ;;
    set_last t
  else ret tt.

(** The three [except] clauses. *)
Definition handlers (w : surroundings) (e : exn) : M unit :=
  match exn_cls e with
  | WaitTimeoutError => ret tt
  | UnknownValueError => ret tt
  | OtherException =>
      external (UpdateUI ("An error occurred: " ++ exn_str e) "") (update_ui_error w)
  end.

(** One pass of the body of [while self.is_listening]. *)
Definition loop_body (w : surroundings) : M unit :=
  current_time <- external (Clock (time_at_guard w)) (Returned (time_at_guard w)) ;;
  s <- get_self ;;
  last <- get_last ;;
  if guard s current_time last
  then try_except (attempt w) (handlers w)
  else external (Sleep (1 # 10)) (Returned tt).

(** A pass as it went: its surroundings, the frame when it started (empty
    log), the frame when it ended ([log] holds the calls of this pass in
    order), and whether it ended by an exception that leaves the loop. *)
Record pass := {
  p_world : surroundings;
  p_start : frame;
  p_end : frame;
  p_status : outcome unit
}.

Fixpoint run (ws : list surroundings) (s : AudioAssistant) (last : Q) : list pass :=
  match ws with
  | [] => []
  | w :: ws =>
      let s := after_calls (calls_before w) s in
      if is_listening s then
        let f0 := {| self := s; last_speak_time := last; log := [] |} in
        let r := loop_body w f0 in
        {| p_world := w; p_start := f0; p_end := fst r; p_status := snd r |} ::
        match snd r with
        | Returned _ => run ws (self (fst r)) (last_speak_time (fst r))
        | Raised _ => []
        end
      else []
  end.

(** [listen_and_process], along the first passes of the loop: one pass for
    each element of [ws], until [is_listening] is read false or an exception
    leaves the loop. *)
Definition listen_and_process (ws : list surroundings) (s : AudioAssistant) : list pass :=
  run ws s 0.

(** ** Reading a pass *)

(** The frame [f] after the calls [evs], nothing else changed. *)
Definition logged (f : frame) (evs : list event) : frame :=
  {| self := self f; last_speak_time := last_speak_time f; log := log f ++ evs |}.

(** The cooldown has elapsed at [now], counted from [last]. *)
Definition cooldown_elapsed (now last : Q) : Prop := (cooldown_time < now - last)%Q.

Definition is_listen (ev : event) : bool :=
  match ev with
  | Listen => true
  | _ => false
  end.

(** A capture attempt was made. *)
Definition captures (evs : list event) : bool := existsb is_listen evs.


(** The first question line handed to the display surface. *)
Fixpoint question_line (evs : list event) : option string :=
  match evs with
  | [] => None
  | UpdateUI q _ :: _ => Some q
  | _ :: evs => question_line evs
  end.

(** The time recorded by line 94, when the pass reached it: the pass ended
    with [time.time()] right after the answer went to the display surface. *)
Definition answer_completed (evs : list event) : option Q :=
  match List.rev evs with
  | Clock t :: UpdateUI _ _ :: _ => Some t
  | _ => None
  end.

End Controller.

(** ** Sample inputs *)

Module Samples.
Import Controller.

(** A configured assistant whose loop has been started. *)
Definition listening : AudioAssistant :=
  after_calls [save_api_key (Some "sk-test") None; toggle_listening]
              (Assistant.fresh None).

(** Somebody asks a question, every service answers. *)
Definition asked (text : string) (t0 t1 : Q) : surroundings :=
  {| calls_before := [];
     time_at_guard := t0;
     listen := Returned tt;
     recognize_google := Returned text;
     update_ui_question := Returned tt;
     chat_completions := fun _ => Returned [Some " I am here. "];
     audio_speech := fun _ => Returned [Byte.x4d; Byte.x61];
     print_line := Returned tt;
     update_ui_answer := Returned tt;
     time_at_end := t1;
     update_ui_error := Returned tt |}.

Definition with_calls (cs : list call) (w : surroundings) : surroundings :=
  {| calls_before := cs;
     time_at_guard := time_at_guard w;
     listen := listen w;
     recognize_google := recognize_google w;
     update_ui_question := update_ui_question w;
     chat_completions := chat_completions w;
     audio_speech := audio_speech w;
     print_line := print_line w;
     update_ui_answer := update_ui_answer w;
     time_at_end := time_at_end w;
     update_ui_error := update_ui_error w |}.

Definition ConnectionError : exn := Exn OtherException "Connection error.".

(** The same, but the display surface refuses the answer. *)
Definition answer_refused (text : string) (t0 t1 : Q) : surroundings :=
  {| calls_before := [];
     time_at_guard := t0;
     listen := Returned tt;
     recognize_google := Returned text;
     update_ui_question := Returned tt;
     chat_completions := fun _ => Returned [Some " I am here. "];
     audio_speech := fun _ => Returned [Byte.x4d; Byte.x61];
     print_line := Returned tt;
     update_ui_answer := Raised ConnectionError;
     time_at_end := t1;
     update_ui_error := Returned tt |}.

(** The same as [asked], but the chat service is down. *)
Definition chat_down (text : string) (t0 t1 : Q) : surroundings :=
  {| calls_before := [];
     time_at_guard := t0;
     listen := Returned tt;
     recognize_google := Returned text;
     update_ui_question := Returned tt;
     chat_completions := fun _ => Raised ConnectionError;
     audio_speech := fun _ => Returned [];
     print_line := Returned tt;
     update_ui_answer := Returned tt;
     time_at_end := t1;
     update_ui_error := Returned tt |}.

Definition start (s : AudioAssistant) (last : Q) : frame :=
  {| self := s; last_speak_time := last; log := [] |}.

End Samples.

(** ** Further readings of texts, calls and traces *)

Module Reading.
Import Py.

(** Every character of [s] is white space. *)
Fixpoint all_space (s : string) : bool :=
  match s with
  | "" => true
  | String c r => isspace c && all_space r
  end.

(** The first and the last character of [s] exist and are no white
    space. *)
Definition solid_ends (s : string) : bool :=
  match s, rev s with
  | String c _, String d _ => negb (isspace c) && negb (isspace d)
  | _, _ => false
  end.

(** The upper-case form of [c] lies in the alphabet of the model, so that
    [upper_char c] is what [str.upper] gives: every character but U+00B5 and
    U+00FF. *)
Definition upper_in_alphabet (c : ascii) : bool :=
  negb (code c =? 181)%N && negb (code c =? 255)%N.

(** The frame of a pass when line 91 calls [get_ai_response]: the question
    line [q] has gone to the display surface and [is_speaking] is set. *)
Definition frame_at_answer (w : surroundings) (f : frame) (q : string) : frame :=
  {| self := set_is_speaking true (self f);
     last_speak_time := last_speak_time f;
     log := log f ++ [Clock (time_at_guard w); Listen; Recognize;
                      UpdateUI ("Q: " ++ q) ""] |}.

Definition is_chat_request (ev : event) : bool :=
  match ev with
  | ChatRequest _ => true
  | _ => false
  end.

Definition is_speech_request (ev : event) : bool :=
  match ev with
  | SpeechRequest _ => true
  | _ => false
  end.

(** A call to the answer service. *)
Definition is_answer_request (ev : event) : bool :=
  is_chat_request ev || is_speech_request ev.

Definition is_update_ui (ev : event) : bool :=
  match ev with
  | UpdateUI _ _ => true
  | _ => false
  end.

Definition is_recognize (ev : event) : bool :=
  match ev with
  | Recognize => true
  | _ => false
  end.

(** The calls [get_ai_response] can make. *)
Definition is_service_event (ev : event) : bool :=
  match ev with
  | ChatRequest _ | SpeechRequest _ | PrintLine _ => true
  | _ => false
  end.

Definition count (p : event -> bool) (evs : list event) : nat :=
  List.length (filter p evs).

(** The calls of the front end that touch neither [is_listening] nor the
    credential. *)
Definition plain (c : call) : bool :=
  match c with
  | has_api_key | toggle_tts | speaking_ended
  | audio_playback_started | audio_playback_ended => true
  | _ => false
  end.

End Reading.

(** ** Further sample inputs *)

Module Scenes.

Definition Timeout : exn :=
  Exn WaitTimeoutError "listening timed out while waiting for phrase to start".

(** Nobody speaks. *)
Definition silence (t0 : Q) : surroundings :=
  {| calls_before := [];
     time_at_guard := t0;
     listen := Raised Timeout;
     recognize_google := Returned "";
     update_ui_question := Returned tt;
     chat_completions := fun _ => Returned [];
     audio_speech := fun _ => Returned [];
     print_line := Returned tt;
     update_ui_answer := Returned tt;
     time_at_end := t0;
     update_ui_error := Returned tt |}.

(** The recogniser cannot be reached. *)
Definition recogniser_down (t0 : Q) : surroundings :=
  {| calls_before := [];
     time_at_guard := t0;
     listen := Returned tt;
     recognize_google := Raised Samples.ConnectionError;
     update_ui_question := Returned tt;
     chat_completions := fun _ => Returned [];
     audio_speech := fun _ => Returned [];
     print_line := Returned tt;
     update_ui_answer := Returned tt;
     time_at_end := t0;
     update_ui_error := Returned tt |}.

(** What [print] raises on a stream that cannot encode the line. *)
Definition EncodeError : exn :=
  Exn OtherException "'charmap' codec can't encode character".

(** The surroundings [w], but [print] raises. *)
Definition print_fails (w : surroundings) : surroundings :=
  {| calls_before := calls_before w;
     time_at_guard := time_at_guard w;
     listen := listen w;
     recognize_google := recognize_google w;
     update_ui_question := update_ui_question w;
     chat_completions := chat_completions w;
     audio_speech := audio_speech w;
     print_line := Raised EncodeError;
     update_ui_answer := update_ui_answer w;
     time_at_end := time_at_end w;
     update_ui_error := update_ui_error w |}.

(** The surroundings [w], but the display surface refuses the error
    line. *)
Definition error_line_refused (w : surroundings) : surroundings :=
  {| calls_before := calls_before w;
     time_at_guard := time_at_guard w;
     listen := listen w;
     recognize_google := recognize_google w;
     update_ui_question := update_ui_question w;
     chat_completions := chat_completions w;
     audio_speech := audio_speech w;
     print_line := print_line w;
     update_ui_answer := update_ui_answer w;
     time_at_end := time_at_end w;
     update_ui_error := Raised Samples.ConnectionError |}.

End Scenes.

(** * Properties *)

(** ** The classifier *)

Section ClassifierFacts.
Import Py Classifier.

Lemma inverted_auxiliary_is_starter (w : string) :
  In w inverted_auxiliaries -> In w question_starters.
Proof.
  unfold inverted_auxiliaries, question_starters.
  intros H; repeat (destruct H as [<- | H]; [simpl; tauto | ]).
  destruct H.
Qed.

Lemma re_match_implies_starter (t : string) :
  re_match_inverted t = true -> rule_starter t = true.
Proof.
  unfold re_match_inverted, rule_starter, any.
  rewrite !existsb_exists.
  intros [w [Hin Hw]].
  exists w; split.
  - now apply inverted_auxiliary_is_starter.
  - unfold word_then_space in Hw.
    now apply andb_true_iff in Hw as [Hw _].
Qed.

(** C3.  The classifier accepts "what is the weather", "Is this working?"
    and "tell me about dogs", and rejects "I like dogs" and the empty
    string. *)
Theorem is_question_cases :
  is_question "what is the weather" = true /\
  is_question "Is this working?" = true /\
  is_question "tell me about dogs" = true /\
  is_question "I like dogs" = false /\
  is_question "" = false.
Proof. repeat split; vm_compute; reflexivity. Qed.

(** C7.  The regular-expression rule is redundant: the classifier without
    it gives the same answer on every text, because a text the expression
    matches starts with one of the starter words. *)
Theorem regex_rule_redundant :
  (forall text, is_question text = is_question_without_regex text) /\
  (forall t, re_match_inverted t = true -> rule_starter t = true).
Proof.
  split.
  - intros text. unfold is_question, is_question_without_regex.
    destruct (rule_starter (normalized text)) eqn:Hs; [reflexivity | ].
    destruct (rule_mark (normalized text)); [reflexivity | ].
    destruct (re_match_inverted (normalized text)) eqn:Hr; [ | reflexivity].
    apply re_match_implies_starter in Hr. congruence.
  - exact re_match_implies_starter.
Qed.

Lemma regex_rule_redundant_witness :
  re_match_inverted "are you there" = true /\
  rule_starter "are you there" = true /\
  is_question "are you there" = is_question_without_regex "are you there".
Proof.
  split; [reflexivity | ]. split.
  - apply (proj2 regex_rule_redundant). reflexivity.
  - apply (proj1 regex_rule_redundant).
Defined.

(** C8.  The starter rule is a plain prefix test.  "island weather today"
    and "haddock recipes" are accepted, the only starters that match are
    "is" and "had", the character after them is no white space, and no other
    rule accepts the text. *)
Theorem starter_matches_inside_a_word :
  let accepted_only_by_prefix text starter next :=
    is_question text = true /\
    filter (startswith (normalized text)) question_starters = [starter] /\
    String.get (String.length starter) (normalized text) = Some next /\
    isspace next = false /\
    rule_mark (normalized text) = false /\
    re_match_inverted (normalized text) = false /\
    rule_phrase (normalized text) = false in
  accepted_only_by_prefix "island weather today" "is" "l"%char /\
  accepted_only_by_prefix "haddock recipes" "had" "d"%char.
Proof. cbv zeta. repeat split; vm_compute; reflexivity. Qed.

(** C10.  A text the classifier accepts is not empty, so [text[0]] in the
    normalisation step is in range: [capitalize] returns. *)
Theorem accepted_text_is_not_empty (t : string) :
  is_question t = true ->
  t <> "" /\
  exists c r, t = String c r /\
    Normalize.capitalize t = Returned (upper_char c ++ r).
Proof.
  intros H. destruct t as [ | c r].
  - vm_compute in H. discriminate.
  - split; [discriminate | ]. exists c, r. split; reflexivity.
Qed.

Lemma accepted_text_is_not_empty_witness :
  is_question "why" = true /\
  "why" <> "" /\
  exists c r, "why" = String c r /\
    Normalize.capitalize "why" = Returned (upper_char c ++ r).
Proof.
  split; [reflexivity | ].
  apply (accepted_text_is_not_empty "why"). reflexivity.
Defined.

End ClassifierFacts.

(** ** The turn controller *)

Section ControllerFacts.
Import Py Classifier Controller.

Lemma Qltb_true (a b : Q) : Qltb a b = true <-> (a < b)%Q.
Proof.
  unfold Qltb. rewrite negb_true_iff, <- not_true_iff_false, Qle_bool_iff.
  split; [apply Qnot_le_lt | apply Qlt_not_le].
Qed.

Lemma guard_true (s : AudioAssistant) (now last : Q) :
  guard s now last = true <->
  is_speaking s = false /\ audio_playing s = false /\ cooldown_elapsed now last.
Proof.
  unfold guard, cooldown_elapsed.
  rewrite !andb_true_iff, !negb_true_iff, Qltb_true. tauto.
Qed.

Lemma guard_false (s : AudioAssistant) (now last : Q) :
  guard s now last = false <->
  is_speaking s = true \/ audio_playing s = true \/ ~ cooldown_elapsed now last.
Proof.
  rewrite <- not_true_iff_false, guard_true.
  destruct (is_speaking s), (audio_playing s); intuition congruence.
Qed.

(** The facts about a concrete list of calls of [get_ai_response]. *)
Ltac service_facts :=
  split; [reflexivity | ];
  split; [unfold Reading.count; cbn; lia | ];
  split; [unfold Reading.count; cbn; lia | ];
  split; [intros ?; first [discriminate | reflexivity] | ];
  split; [intros ?; first [discriminate | reflexivity] | ].

(** [get_ai_response] touches nothing but the log, and calls nothing but
    the two services and [print]; it raises only what [print] raised after a
    failed round trip. *)
Lemma answer_events (w : surroundings) (q : string) (f : frame) :
  exists evs r,
    get_ai_response w q f = (logged f evs, r) /\
    forallb Reading.is_service_event evs = true /\
    (Reading.count Reading.is_chat_request evs <= 1)%nat /\
    (Reading.count Reading.is_speech_request evs <= 1)%nat /\
    (client (self f) = None -> Reading.count Reading.is_answer_request evs = 0%nat) /\
    (tts_enabled (self f) = false ->
     Reading.count Reading.is_speech_request evs = 0%nat) /\
    (forall e, r = Raised e ->
       print_line w = Raised e /\ exists e0, round_trip_fails (self f) w q e0).
Proof.
  unfold get_ai_response, try_except, bind, get_self, external, raise, ret, logged.
  cbn.
  destruct (client (self f)) as [c | ] eqn:Hc; cbn.
  - destruct (chat_completions w q) as [[ | [content | ] cs] | e] eqn:Hchat; cbn.
    + exists [ChatRequest q; PrintLine ("Error in get_ai_response: list index out of range")].
      destruct (print_line w) as [u | ep]; cbn; eexists; rewrite <- app_assoc;
        (split; [reflexivity | ]); service_facts.
      * discriminate.
      * intros ? [= <-]. split; [reflexivity | ]. eexists. eapply no_choice; eassumption.
    + destruct (tts_enabled (self f)) eqn:Ht; cbn.
      * destruct (audio_speech w (strip content)) as [bytes | e] eqn:Hs; cbn.
        -- exists [ChatRequest q; SpeechRequest (strip content)].
           eexists. rewrite <- app_assoc.
           (split; [reflexivity | ]); service_facts. discriminate.
        -- exists [ChatRequest q; SpeechRequest (strip content);
                   PrintLine ("Error in get_ai_response: " ++ exn_str e)].
           destruct (print_line w) as [u | ep]; cbn; eexists; rewrite <- !app_assoc;
             (split; [reflexivity | ]); service_facts.
           ++ discriminate.
           ++ intros ? [= <-]. split; [reflexivity | ].
              eexists. eapply speech_raises; eassumption.
      * exists [ChatRequest q]. eexists.
        (split; [reflexivity | ]); service_facts. discriminate.
    + exists [ChatRequest q;
              PrintLine ("Error in get_ai_response: 'NoneType' object has no attribute 'strip'")].
      destruct (print_line w) as [u | ep]; cbn; eexists; rewrite <- app_assoc;
        (split; [reflexivity | ]); service_facts.
      * discriminate.
      * intros ? [= <-]. split; [reflexivity | ]. eexists. eapply no_content; eassumption.
    + exists [ChatRequest q; PrintLine ("Error in get_ai_response: " ++ exn_str e)].
      destruct (print_line w) as [u | ep]; cbn; eexists; rewrite <- app_assoc;
        (split; [reflexivity | ]); service_facts.
      * discriminate.
      * intros ? [= <-]. split; [reflexivity | ]. eexists. eapply chat_raises; eassumption.
  - exists [PrintLine ("Error in get_ai_response: 'NoneType' object has no attribute 'chat'")].
    destruct (print_line w) as [u | ep]; cbn; eexists;
      (split; [reflexivity | ]); service_facts.
    + discriminate.
    + intros ? [= <-]. split; [reflexivity | ]. eexists. eapply no_client; eassumption.
Qed.

(** Opens the body of a pass and follows the answers of the surroundings. *)
Ltac open_pass :=
  unfold loop_body, attempt, handlers, try_except, bind, get_self, get_last,
    modify_self, set_last, external, lift, raise, ret, logged; cbn.

Ltac answer_step :=
  match goal with
  | |- context [get_ai_response ?w ?q ?f] =>
      let evs := fresh "evs" in
      let r := fresh "r" in
      let Hev := fresh "Hev" in
      let ex := fresh "ex" in
      destruct (answer_events w q f) as (evs & r & -> & Hev & _);
      destruct r as [r | ex]; cbn
  end.

(** Names the frame in which the pass calls [get_ai_response]. *)
Ltac at_answer w f q :=
  match goal with
  | |- context [get_ai_response w q ?g] =>
      replace g with (Reading.frame_at_answer w f q)
        by (unfold Reading.frame_at_answer; f_equal;
            rewrite <- !app_assoc; reflexivity)
  end.

Lemma pass_suppressed (w : surroundings) (f : frame) :
  guard (self f) (time_at_guard w) (last_speak_time f) = false ->
  loop_body w f = (logged f [Clock (time_at_guard w); Sleep (1 # 10)], Returned tt).
Proof.
  intros H. open_pass. rewrite H. cbn.
  rewrite <- app_assoc. reflexivity.
Qed.




(** Every pass of a run is a pass of the body, started with an empty log
    while [is_listening] was true. *)
Lemma run_pass (ws : list surroundings) (s : AudioAssistant) (last : Q) (p : pass) :
  In p (run ws s last) ->
  log (p_start p) = [] /\
  is_listening (self (p_start p)) = true /\
  p_end p = fst (loop_body (p_world p) (p_start p)) /\
  p_status p = snd (loop_body (p_world p) (p_start p)).
Proof.
  revert s last. induction ws as [ | w ws IH]; intros s last; cbn [run].
  - intros [].
  - destruct (is_listening (after_calls (calls_before w) s)) eqn:Hl; [ | intros []].
    intros [<- | H]; cbn [p_start p_end p_world p_status self log].
    + auto.
    + match type of H with In _ (match ?x with _ => _ end) => destruct x end;
        [ | destruct H].
      eapply IH, H.
Qed.




Lemma answer_completed_done (l : list event) (q a : string) (t : Q) :
  answer_completed ((l ++ [UpdateUI q a]) ++ [Clock t]) = Some t.
Proof. unfold answer_completed. rewrite !rev_app_distr. reflexivity. Qed.

Lemma answer_completed_other (l : list event) (ev : event) :
  match ev with Clock _ => False | _ => True end ->
  answer_completed (l ++ [ev]) = None.
Proof.
  unfold answer_completed. rewrite rev_app_distr.
  destruct ev; cbn; intros H; now try destruct H.
Qed.

Lemma answer_completed_service (l evs : list event) (q a : string) :
  forallb Reading.is_service_event evs = true ->
  answer_completed ((l ++ [UpdateUI q a]) ++ evs) = None.
Proof.
  intros Hev. destruct evs as [ | ev0 evs0].
  - rewrite app_nil_r. now apply answer_completed_other.
  - destruct (exists_last (l := ev0 :: evs0)) as (evs' & ev & E); [discriminate | ].
    rewrite E in *. rewrite app_assoc. apply answer_completed_other.
    rewrite forallb_app in Hev. apply andb_true_iff in Hev as [_ Hev].
    cbn in Hev. now destruct ev.
Qed.

(** [last_speak_time] after a pass is the time recorded by line 94 when the
    pass reached it, and is unchanged otherwise. *)
Lemma pass_last_speak_time (w : surroundings) (f : frame) :
  log f = [] ->
  last_speak_time (fst (loop_body w f)) =
  match answer_completed (log (fst (loop_body w f))) with
  | Some t => t
  | None => last_speak_time f
  end.
Proof.
  intros Hlog.
  destruct (guard (self f) (time_at_guard w) (last_speak_time f)) eqn:Hg.
  2: { rewrite (pass_suppressed _ _ Hg). cbn. rewrite Hlog. reflexivity. }
  open_pass. rewrite Hg, Hlog. cbn.
  destruct (listen w) as [u | e]; cbn.
  2: { destruct (exn_cls e); reflexivity. }
  destruct (recognize_google w) as [text | e]; cbn.
  2: { destruct (exn_cls e); reflexivity. }
  destruct (is_question text); cbn; [ | reflexivity].
  destruct (Normalize.capitalized_text text) as [q | e]; cbn.
  2: { destruct (exn_cls e); reflexivity. }
  destruct (update_ui_question w) as [u' | e]; cbn.
  2: { destruct (exn_cls e); reflexivity. }
  answer_step.
  - destruct (update_ui_answer w) as [u'' | e]; cbn.
    + rewrite !app_comm_cons, answer_completed_done. reflexivity.
    + destruct (exn_cls e); cbn;
        rewrite !app_comm_cons, answer_completed_other by exact I; reflexivity.
  - assert (forall a b c q0,
              answer_completed (a :: b :: c :: UpdateUI q0 "" :: evs) = None) as Hnone.
    { intros a b c q0. exact (answer_completed_service [a; b; c] evs q0 "" Hev). }
    destruct (exn_cls ex); cbn.
    + now rewrite Hnone.
    + now rewrite Hnone.
    + rewrite !app_comm_cons, answer_completed_other by exact I. reflexivity.
Qed.

(** While no pass completes an answer, [last_speak_time] stays what it was. *)
Lemma run_keeps_last (ws : list surroundings) (s : AudioAssistant) (last : Q)
    (j : nat) (pj : pass) :
  nth_error (run ws s last) j = Some pj ->
  (forall k pk, (k < j)%nat -> nth_error (run ws s last) k = Some pk ->
                answer_completed (log (p_end pk)) = None) ->
  last_speak_time (p_start pj) = last.
Proof.
  revert s last j. induction ws as [ | w ws IH]; intros s last j; cbn [run].
  - destruct j; discriminate.
  - destruct (is_listening (after_calls (calls_before w) s)); [ | destruct j; discriminate].
    set (f0 := {| self := after_calls (calls_before w) s; last_speak_time := last; log := [] |}).
    destruct j as [ | j]; cbn [nth_error].
    + intros [= <-] _. reflexivity.
    + intros Hj Hnone.
      pose proof (Hnone 0%nat _ (Nat.lt_0_succ j) eq_refl) as H0.
      cbn [p_end] in H0.
      pose proof (pass_last_speak_time w f0 eq_refl) as Hl.
      rewrite H0 in Hl. change (last_speak_time f0) with last in Hl.
      destruct (snd (loop_body w f0)); [ | destruct j; discriminate].
      rewrite Hl in Hj, Hnone.
      apply (IH _ _ _ Hj).
      intros k pk Hk Hpk. apply (Hnone (S k) pk); [lia | exact Hpk].
Qed.

(** At the start of a pass [last_speak_time] is the time recorded by the
    latest pass before it that completed an answer. *)
Lemma run_last_is_latest_answer (ws : list surroundings) (s : AudioAssistant) (last : Q)
    (i j : nat) (pi pj : pass) (t : Q) :
  (i < j)%nat ->
  nth_error (run ws s last) i = Some pi ->
  nth_error (run ws s last) j = Some pj ->
  answer_completed (log (p_end pi)) = Some t ->
  (forall k pk, (i < k < j)%nat -> nth_error (run ws s last) k = Some pk ->
                answer_completed (log (p_end pk)) = None) ->
  last_speak_time (p_start pj) = t.
Proof.
  revert s last i j. induction ws as [ | w ws IH]; intros s last i j Hij; cbn [run].
  - destruct i; discriminate.
  - destruct (is_listening (after_calls (calls_before w) s)); [ | destruct i; discriminate].
    set (f0 := {| self := after_calls (calls_before w) s; last_speak_time := last; log := [] |}).
    destruct j as [ | j]; [lia | ].
    destruct i as [ | i]; cbn [nth_error].
    + intros [= <-] Hj Ht Hnone. cbn [p_end] in Ht.
      pose proof (pass_last_speak_time w f0 eq_refl) as Hl.
      rewrite Ht in Hl.
      destruct (snd (loop_body w f0)); [ | destruct j; discriminate].
      rewrite Hl in Hj, Hnone.
      apply (run_keeps_last _ _ _ _ _ Hj).
      intros k pk Hk Hpk. apply (Hnone (S k) pk); [lia | exact Hpk].
    + intros Hi Hj Ht Hnone.
      destruct (snd (loop_body w f0)); [ | destruct j; discriminate].
      eapply (IH _ _ i j); [lia | exact Hi | exact Hj | exact Ht | ].
      intros k pk Hk Hpk. apply (Hnone (S k) pk); [lia | exact Hpk].
Qed.

(** A pass that captures found the cooldown elapsed. *)
Lemma capture_after_cooldown (ws : list surroundings) (s : AudioAssistant) (last : Q)
    (p : pass) :
  In p (run ws s last) ->
  captures (log (p_end p)) = true ->
  cooldown_elapsed (time_at_guard (p_world p)) (last_speak_time (p_start p)).
Proof.
  intros Hp Hc. apply run_pass in Hp as (Hlog & _ & Hend & _).
  destruct (guard (self (p_start p)) (time_at_guard (p_world p))
              (last_speak_time (p_start p))) eqn:Hg.
  - now apply guard_true in Hg.
  - rewrite Hend, (pass_suppressed _ _ Hg) in Hc. cbn in Hc.
    rewrite Hlog in Hc. discriminate.
Qed.

(** C5.  When a pass completed an answer at time [t] (the value line 94
    stored in [last_speak_time]) and no pass after it did so before pass [j],
    a capture attempt of pass [j] starts no less than [cooldown_time] after
    [t]. *)
Theorem consecutive_questions_keep_cooldown
    (ws : list surroundings) (s : AudioAssistant)
    (i j : nat) (pi pj : pass) (t : Q) :
  (i < j)%nat ->
  nth_error (listen_and_process ws s) i = Some pi ->
  nth_error (listen_and_process ws s) j = Some pj ->
  answer_completed (log (p_end pi)) = Some t ->
  (forall k pk, (i < k < j)%nat -> nth_error (listen_and_process ws s) k = Some pk ->
                answer_completed (log (p_end pk)) = None) ->
  captures (log (p_end pj)) = true ->
  (cooldown_time <= time_at_guard (p_world pj) - t)%Q.
Proof.
  intros Hij Hi Hj Ht Hnone Hc.
  pose proof (run_last_is_latest_answer _ _ _ _ _ _ _ _ Hij Hi Hj Ht Hnone) as Hl.
  apply nth_error_In in Hj.
  pose proof (capture_after_cooldown _ _ _ _ Hj Hc) as He.
  unfold cooldown_elapsed in He. rewrite Hl in He.
  apply Qlt_le_weak, He.
Qed.

Lemma consecutive_questions_keep_cooldown_witness :
  exists pi pj,
    let ps := listen_and_process
                [Samples.asked "are you there" 10 11;
                 Samples.asked "what now" 12 13;
                 Samples.asked "what now" 14 15] Samples.listening in
    nth_error ps 0 = Some pi /\
    nth_error ps 2 = Some pj /\
    answer_completed (log (p_end pi)) = Some 11 /\
    captures (log (p_end pj)) = true /\
    (cooldown_time <= time_at_guard (p_world pj) - 11)%Q.
Proof.
  do 2 eexists. cbv zeta.
  split; [vm_compute; reflexivity | ].
  split; [vm_compute; reflexivity | ].
  split; [reflexivity | ].
  split; [reflexivity | ].
  eapply (consecutive_questions_keep_cooldown
            [Samples.asked "are you there" 10 11;
             Samples.asked "what now" 12 13;
             Samples.asked "what now" 14 15] Samples.listening 0 2).
  - lia.
  - vm_compute; reflexivity.
  - vm_compute; reflexivity.
  - reflexivity.
  - intros k pk Hk. assert (k = 1%nat) as -> by lia.
    vm_compute. intros [= <-]. reflexivity.
  - reflexivity.
Defined.

(** ** Failures of the answer service *)








(** ** A refused answer *)

Lemma capitalized_text_returns (text : string) :
  is_question text = true ->
  exists q, Normalize.capitalized_text text = Returned q.
Proof.
  intros H. destruct text as [ | c r].
  - vm_compute in H. discriminate.
  - eexists. reflexivity.
Qed.

Lemma call_keeps_speaking (c : call) (s : AudioAssistant) :
  is_speaking s = true ->
  c <> speaking_ended -> c <> audio_playback_ended ->
  is_speaking (state_after c s) = true.
Proof.
  intros Hs H1 H2. unfold state_after, exposed.
  destruct c as [ | k [e | ] | | | | | | ]; cbn; try assumption; try congruence.
  - unfold Assistant.toggle_listening. destruct (client s); cbn; assumption.
  - unfold Assistant.delete_api_key. cbn. destruct (config_json s); assumption.
Qed.

Lemma calls_keep_speaking (cs : list call) (s : AudioAssistant) :
  is_speaking s = true ->
  ~ In speaking_ended cs -> ~ In audio_playback_ended cs ->
  is_speaking (after_calls cs s) = true.
Proof.
  revert s. induction cs as [ | c cs IH]; intros s Hs H1 H2; cbn.
  - assumption.
  - apply IH.
    + apply call_keeps_speaking; [assumption | | ]; intros ->; cbn in *; tauto.
    + cbn in H1. tauto.
    + cbn in H2. tauto.
Qed.

(** While [is_speaking] stays true, no pass captures. *)
Lemma no_capture_while_speaking (ws : list surroundings) (s : AudioAssistant) (last : Q) :
  is_speaking s = true ->
  (forall w, In w ws ->
     ~ In speaking_ended (calls_before w) /\
     ~ In audio_playback_ended (calls_before w)) ->
  forall p, In p (run ws s last) -> captures (log (p_end p)) = false.
Proof.
  revert s last. induction ws as [ | w ws IH]; intros s last Hs Hq p; cbn [run].
  - intros [].
  - destruct (is_listening (after_calls (calls_before w) s)); [ | intros []].
    set (f0 := {| self := after_calls (calls_before w) s; last_speak_time := last; log := [] |}).
    assert (is_speaking (self f0) = true) as Hs0.
    { apply calls_keep_speaking; [assumption | | ]; apply (Hq w); now left. }
    assert (guard (self f0) (time_at_guard w) (last_speak_time f0) = false) as Hg.
    { apply guard_false. now left. }
    rewrite (pass_suppressed _ _ Hg). cbn [fst snd].
    intros [<- | Hp].
    + reflexivity.
    + apply (IH _ _ Hs0) in Hp; [assumption | ].
      intros w' Hw'. apply Hq. now right.
Qed.

(** C9, as the claim states it, fails: the display surface raises on the
    answer and again on the error line of the catch-all clause; that second
    exception is not taken by any clause, it leaves the loop, which makes
    this one pass and no other. *)
Lemma refused_error_line_leaves_loop :
  let w := Scenes.error_line_refused (Samples.answer_refused "are you there" 10 11) in
  let f := Samples.start Samples.listening 0 in
  update_ui_answer w = Raised Samples.ConnectionError /\
  is_speaking (self (fst (loop_body w f))) = true /\
  snd (loop_body w f) = Raised Samples.ConnectionError /\
  List.length (listen_and_process
                 [w; Samples.with_calls [speaking_ended] (Samples.asked "what now" 20 21)]
                 Samples.listening) = 1%nat.
Proof. cbv zeta. repeat split. Qed.

(** C9, amended.  When [get_ai_response] has returned and the display surface
    raises on the answer, after [is_speaking] was set: an [except] clause
    takes the exception; for every class but the recogniser's two it is the
    catch-all, which publishes an error line, and the pass ends the way that
    publication ends: normally when it returns, while an exception of it
    leaves the loop.  In both cases [is_speaking] is left true and
    [last_speak_time] is not updated, and no later pass captures as long as
    the front end calls neither [speaking_ended] nor
    [audio_playback_ended]. *)
Theorem refused_answer_leaves_speaking
    (w : surroundings) (f : frame) (text q r : string) (evs : list event) (e : exn) :
  guard (self f) (time_at_guard w) (last_speak_time f) = true ->
  listen w = Returned tt ->
  recognize_google w = Returned text ->
  is_question text = true ->
  Normalize.capitalized_text text = Returned q ->
  update_ui_question w = Returned tt ->
  get_ai_response w q (Reading.frame_at_answer w f q)
    = (logged (Reading.frame_at_answer w f q) evs, Returned r) ->
  update_ui_answer w = Raised e ->
  let p := loop_body w f in
  snd p = match exn_cls e with
          | OtherException => update_ui_error w
          | _ => Returned tt
          end /\
  (exn_cls e = OtherException ->
   In (UpdateUI ("An error occurred: " ++ exn_str e) "") (log (fst p))) /\
  In (UpdateUI "" r) (log (fst p)) /\
  is_speaking (self (fst p)) = true /\
  last_speak_time (fst p) = last_speak_time f /\
  forall ws,
    (forall w', In w' ws ->
       ~ In speaking_ended (calls_before w') /\
       ~ In audio_playback_ended (calls_before w')) ->
    forall p', In p' (run ws (self (fst p)) (last_speak_time (fst p))) ->
               captures (log (p_end p')) = false.
Proof.
  intros Hg Hl Hr Hq Hcap Hu Hans Ha. cbv zeta.
  assert (snd (loop_body w f) = match exn_cls e with
                                | OtherException => update_ui_error w
                                | _ => Returned tt
                                end /\
          (exn_cls e = OtherException ->
           In (UpdateUI ("An error occurred: " ++ exn_str e) "")
              (log (fst (loop_body w f)))) /\
          In (UpdateUI "" r) (log (fst (loop_body w f))) /\
          is_speaking (self (fst (loop_body w f))) = true /\
          last_speak_time (fst (loop_body w f)) = last_speak_time f)
    as (H1 & H2 & H3 & H4 & H5).
  { open_pass. rewrite Hg, Hl, Hr. cbn. rewrite Hq. cbn.
    rewrite Hcap. cbn. rewrite Hu. cbn.
    at_answer w f q. rewrite Hans. cbn. rewrite Ha. cbn.
    destruct (exn_cls e); cbn; repeat split; try discriminate.
    - apply in_or_app. right. now left.
    - apply in_or_app. right. now left.
    - intros _. apply in_or_app. right. now left.
    - apply in_or_app. left. apply in_or_app. right. now left. }
  repeat split; try assumption.
  intros ws Hws. now apply no_capture_while_speaking.
Qed.

Lemma refused_answer_leaves_speaking_witness :
  let w := Samples.answer_refused "are you there" 10 11 in
  let f := Samples.start Samples.listening 0 in
  let p := loop_body w f in
  snd p = Returned tt /\
  In (UpdateUI "An error occurred: Connection error." "") (log (fst p)) /\
  is_speaking (self (fst p)) = true /\
  last_speak_time (fst p) = 0 /\
  forall p',
    In p' (run [Samples.asked "what now" 20 21; Samples.asked "what now" 30 31]
               (self (fst p)) (last_speak_time (fst p))) ->
    captures (log (p_end p')) = false.
Proof.
  cbv zeta.
  destruct (refused_answer_leaves_speaking
              (Samples.answer_refused "are you there" 10 11)
              (Samples.start Samples.listening 0) "are you there" "Are you there?"
              (Json.dumps_answer "I am here." (Some "TWE="))
              [ChatRequest "Are you there?"; SpeechRequest "I am here."]
              Samples.ConnectionError)
    as (H1 & H2 & _ & H3 & H4 & H5); try reflexivity.
  split; [exact H1 | ]. split; [exact (H2 eq_refl) | ].
  split; [exact H3 | ]. split; [exact H4 | ].
  apply H5. intros w' [<- | [<- | []]]; cbn; tauto.
Defined.

(** ** The published question line *)

(** With a client, [get_ai_response] starts by asking the chat service. *)
Lemma get_ai_response_asks (w : surroundings) (q : string) (f : frame) :
  client (self f) <> None ->
  exists evs r,
    get_ai_response w q f = (logged f (ChatRequest q :: evs), r).
Proof.
  intros Hc.
  unfold get_ai_response, try_except, bind, get_self, external, raise, ret, logged.
  cbn.
  destruct (client (self f)); [clear Hc | congruence]. cbn.
  destruct (chat_completions w q) as [[ | [content | ] cs] | e]; cbn.
  - destruct (print_line w); cbn; do 2 eexists; rewrite <- app_assoc; reflexivity.
  - destruct (tts_enabled (self f)); cbn.
    + destruct (audio_speech w (strip content)); cbn;
        [ | destruct (print_line w); cbn];
        do 2 eexists; rewrite <- !app_assoc; reflexivity.
    + exists []. eexists. reflexivity.
  - destruct (print_line w); cbn; do 2 eexists; rewrite <- app_assoc; reflexivity.
  - destruct (print_line w); cbn; do 2 eexists; rewrite <- app_assoc; reflexivity.
Qed.

(** C2, as the claim states it, fails: for the transcript "are you there"
    the line handed to the display surface is not "Are you there?". *)
Lemma question_line_is_not_bare :
  let r := loop_body (Samples.asked "are you there" 10 11)
                     (Samples.start Samples.listening 0) in
  is_question "are you there" = true /\
  question_line (log (fst r)) = Some "Q: Are you there?" /\
  question_line (log (fst r)) <> Some "Are you there?".
Proof.
  cbv zeta. split; [reflexivity | ].
  split; [vm_compute; reflexivity | ].
  vm_compute. discriminate.
Qed.

(** C2, amended.  For the transcript "are you there" the normalised question
    is "Are you there?"; the line handed to the display surface is that text
    after the prefix "Q: ", and the text sent to the answer service is that
    text itself. *)
Theorem published_question_line (w : surroundings) (f : frame) :
  log f = [] ->
  guard (self f) (time_at_guard w) (last_speak_time f) = true ->
  listen w = Returned tt ->
  recognize_google w = Returned "are you there" ->
  is_question "are you there" = true /\
  Normalize.capitalized_text "are you there" = Returned "Are you there?" /\
  question_line (log (fst (loop_body w f))) = Some "Q: Are you there?" /\
  (update_ui_question w = Returned tt -> client (self f) <> None ->
   In (ChatRequest "Are you there?") (log (fst (loop_body w f)))).
Proof.
  intros Hlog Hg Hl Hr.
  split; [reflexivity | ]. split; [reflexivity | ].
  open_pass. rewrite Hg, Hlog, Hl, Hr. cbn.
  change (is_question "are you there") with true. cbn.
  split.
  - destruct (update_ui_question w) as [u | e]; cbn.
    + answer_step.
      * destruct (update_ui_answer w) as [u' | e]; cbn; [reflexivity | ].
        destruct (exn_cls e); reflexivity.
      * destruct (exn_cls ex); reflexivity.
    + destruct (exn_cls e); reflexivity.
  - intros -> Hc. cbn.
    match goal with
    | |- context [get_ai_response ?w ?q ?f0] =>
        destruct (get_ai_response_asks w q f0 Hc) as (evs & r & ->)
    end.
    destruct r as [r | ex]; cbn.
    + destruct (update_ui_answer w) as [u' | e]; cbn; [tauto | ].
      destruct (exn_cls e); cbn; tauto.
    + destruct (exn_cls ex); cbn; tauto.
Qed.

Lemma published_question_line_witness :
  let w := Samples.asked "are you there" 10 11 in
  let f := Samples.start Samples.listening 0 in
  question_line (log (fst (loop_body w f))) = Some "Q: Are you there?" /\
  In (ChatRequest "Are you there?") (log (fst (loop_body w f))).
Proof.
  cbv zeta.
  destruct (published_question_line
              (Samples.asked "are you there" 10 11)
              (Samples.start Samples.listening 0))
    as (_ & _ & H3 & H4); try reflexivity.
  split; [exact H3 | ].
  apply H4; [reflexivity | ]. vm_compute. discriminate.
Defined.

(** ** The credential check *)






(** * Further properties of the loop *)

(** ** What a pass leaves alone *)

Lemma pass_keeps_fields (w : surroundings) (f : frame) :
  let s' := self (fst (loop_body w f)) in
  is_listening s' = is_listening (self f) /\
  client s' = client (self f) /\
  api_key s' = api_key (self f) /\
  tts_enabled s' = tts_enabled (self f) /\
  audio_playing s' = audio_playing (self f) /\
  config_json s' = config_json (self f).
Proof.
  cbv zeta.
  destruct (guard (self f) (time_at_guard w) (last_speak_time f)) eqn:Hg.
  2: { rewrite (pass_suppressed _ _ Hg). cbn. repeat split. }
  open_pass. rewrite Hg. cbn.
  destruct (listen w) as [u | e]; cbn.
  2: { destruct (exn_cls e); cbn; repeat split. }
  destruct (recognize_google w) as [text | e]; cbn.
  2: { destruct (exn_cls e); cbn; repeat split. }
  destruct (is_question text); cbn; [ | repeat split].
  destruct (Normalize.capitalized_text text) as [q | e]; cbn.
  2: { destruct (exn_cls e); cbn; repeat split. }
  destruct (update_ui_question w) as [u' | e]; cbn.
  2: { destruct (exn_cls e); cbn; repeat split. }
  answer_step.
  - destruct (update_ui_answer w) as [u'' | e]; cbn; [repeat split | ].
    destruct (exn_cls e); cbn; repeat split.
  - destruct (exn_cls ex); cbn; repeat split.
Qed.

(** X7.  A pass of the loop writes no attribute but [is_speaking]:
    [is_listening], the client, the key, [tts_enabled], [audio_playing] and
    config.json are after the pass what they were before. *)
Theorem pass_writes_only_is_speaking (w : surroundings) (f : frame) :
  let s' := self (fst (loop_body w f)) in
  is_listening s' = is_listening (self f) /\
  client s' = client (self f) /\
  api_key s' = api_key (self f) /\
  tts_enabled s' = tts_enabled (self f) /\
  audio_playing s' = audio_playing (self f) /\
  config_json s' = config_json (self f).
Proof. exact (pass_keeps_fields w f). Qed.

(** ** Leaving the loop *)

Lemma plain_call_keeps (c : call) (s : AudioAssistant) :
  Reading.plain c = true ->
  is_listening (state_after c s) = is_listening s /\
  client (state_after c s) = client s.
Proof.
  unfold state_after, exposed. destruct c; cbn; try discriminate; auto.
Qed.

Lemma plain_calls_keep (cs : list call) (s : AudioAssistant) :
  forallb Reading.plain cs = true ->
  is_listening (after_calls cs s) = is_listening s /\
  client (after_calls cs s) = client s.
Proof.
  revert s. induction cs as [ | c cs IH]; intros s H; cbn in *.
  - auto.
  - apply andb_true_iff in H as [Hc Hcs].
    destruct (plain_call_keeps c s Hc) as [H1 H2].
    destruct (IH (state_after c s) Hcs) as [H3 H4].
    split; congruence.
Qed.

Lemma calls_then_toggle_off (cs : list call) (s : AudioAssistant) (c : OpenAI) :
  client s = Some c -> is_listening s = true ->
  forallb Reading.plain cs = true ->
  is_listening (after_calls (cs ++ [toggle_listening]) s) = false.
Proof.
  revert s. induction cs as [ | c0 cs IH]; intros s Hc Hl H; cbn in *.
  - unfold state_after, exposed, Assistant.toggle_listening. rewrite Hc. cbn.
    now rewrite Hl.
  - apply andb_true_iff in H as [H0 Hcs].
    destruct (plain_call_keeps c0 s H0) as [H1 H2].
    apply IH; congruence.
Qed.

Lemma run_until_toggle_off
    (ws1 ws2 : list surroundings) (w : surroundings) (cs : list call)
    (s : AudioAssistant) (last : Q) (c : OpenAI) :
  client s = Some c -> is_listening s = true ->
  (forall w', In w' ws1 -> forallb Reading.plain (calls_before w') = true) ->
  calls_before w = (cs ++ [toggle_listening])%list ->
  forallb Reading.plain cs = true ->
  run (ws1 ++ w :: ws2) s last = run ws1 s last.
Proof.
  intros Hc Hl Hws Hw Hcs. revert s last Hc Hl.
  induction ws1 as [ | w1 ws1 IH]; intros s last Hc Hl.
  - cbn [app run]. rewrite Hw.
    now rewrite (calls_then_toggle_off cs s c Hc Hl Hcs).
  - cbn [app run].
    destruct (plain_calls_keep (calls_before w1) s) as [H1 H2].
    { apply Hws. now left. }
    rewrite H1, Hl.
    set (f0 := {| self := after_calls (calls_before w1) s;
                  last_speak_time := last; log := [] |}).
    destruct (pass_keeps_fields w1 f0) as (K1 & K2 & _).
    destruct (snd (loop_body w1 f0)); [ | reflexivity].
    f_equal. apply IH.
    + intros w' Hw'. apply Hws. now right.
    + rewrite K2. cbn. congruence.
    + rewrite K1. cbn. congruence.
Qed.

(** X8.  Switching listening off ends the loop at the next pass boundary:
    when the loop runs with a client and the front end, after calls that
    touch neither the flag nor the credential, calls [toggle_listening]
    before some pass, the loop makes the passes before that one and no pass
    after them. *)
Theorem toggle_off_ends_loop
    (ws1 ws2 : list surroundings) (w : surroundings) (cs : list call)
    (s : AudioAssistant) (c : OpenAI) :
  client s = Some c -> is_listening s = true ->
  (forall w', In w' ws1 -> forallb Reading.plain (calls_before w') = true) ->
  calls_before w = (cs ++ [toggle_listening])%list ->
  forallb Reading.plain cs = true ->
  listen_and_process (ws1 ++ w :: ws2) s = listen_and_process ws1 s /\
  (List.length (listen_and_process (ws1 ++ w :: ws2) s) <= List.length ws1)%nat.
Proof.
  intros Hc Hl Hws Hw Hcs. unfold listen_and_process.
  rewrite (run_until_toggle_off ws1 ws2 w cs s 0 c Hc Hl Hws Hw Hcs).
  split; [reflexivity | ].
  generalize 0 as last. generalize s as s0.
  clear. induction ws1 as [ | w1 ws1 IH]; intros s0 last; cbn [run length].
  - lia.
  - destruct (is_listening _); cbn [length]; [ | lia].
    destruct (snd _); cbn [length]; [ | lia].
    specialize (IH (self (fst (loop_body w1
                     {| self := after_calls (calls_before w1) s0;
                        last_speak_time := last; log := [] |})))
                   (last_speak_time (fst (loop_body w1
                     {| self := after_calls (calls_before w1) s0;
                        last_speak_time := last; log := [] |})))).
    lia.
Qed.

Lemma toggle_off_ends_loop_witness :
  let ws1 := [Samples.asked "are you there" 10 11] in
  let w := Samples.with_calls [speaking_ended; toggle_listening]
             (Samples.asked "what now" 20 21) in
  let ws2 := [Samples.asked "what now" 30 31] in
  listen_and_process (ws1 ++ w :: ws2) Samples.listening
    = listen_and_process ws1 Samples.listening /\
  (List.length (listen_and_process (ws1 ++ w :: ws2) Samples.listening) <= 1)%nat.
Proof.
  cbv zeta.
  apply (toggle_off_ends_loop
           [Samples.asked "are you there" 10 11]
           [Samples.asked "what now" 30 31]
           (Samples.with_calls [speaking_ended; toggle_listening]
              (Samples.asked "what now" 20 21))
           [speaking_ended] Samples.listening (OpenAI_client (Some "sk-test"))).
  - reflexivity.
  - reflexivity.
  - intros w' [<- | []]. reflexivity.
  - reflexivity.
  - reflexivity.
Defined.

(** ** Passes that end early *)

(** X9.  A time-out of the microphone and an utterance the recogniser
    cannot understand are passed over in silence: whichever of [listen] and
    [recognize_google] raises [WaitTimeoutError] or [UnknownValueError], the
    pass ends normally, nothing goes to the display surface or to the answer
    service, and the state and [last_speak_time] are unchanged. *)
Theorem recogniser_failures_are_silent
    (w : surroundings) (f : frame) (e : exn) :
  guard (self f) (time_at_guard w) (last_speak_time f) = true ->
  exn_cls e = WaitTimeoutError \/ exn_cls e = UnknownValueError ->
  (listen w = Raised e ->
   loop_body w f = (logged f [Clock (time_at_guard w); Listen], Returned tt)) /\
  (forall u, listen w = Returned u -> recognize_google w = Raised e ->
   loop_body w f =
   (logged f [Clock (time_at_guard w); Listen; Recognize], Returned tt)).
Proof.
  intros Hg He. split.
  - intros Hl. open_pass. rewrite Hg, Hl. cbn.
    destruct He as [-> | ->]; cbn; now rewrite <- app_assoc.
  - intros u Hl Hr. open_pass. rewrite Hg, Hl, Hr. cbn.
    destruct He as [-> | ->]; cbn; now rewrite <- !app_assoc.
Qed.

Lemma recogniser_failures_are_silent_witness :
  let f := Samples.start Samples.listening 0 in
  loop_body (Scenes.silence 10) f = (logged f [Clock 10; Listen], Returned tt).
Proof.
  cbv zeta.
  destruct (recogniser_failures_are_silent (Scenes.silence 10)
              (Samples.start Samples.listening 0) Scenes.Timeout
              eq_refl (or_introl eq_refl)) as [H _].
  exact (H eq_refl).
Defined.

(** X10.  Every other exception of [listen] or [recognize_google] is shown:
    the pass hands "An error occurred: " followed by [str(e)] to the display
    surface as question line, asks the answer service nothing, leaves the
    state and [last_speak_time] unchanged, and ends as that publication
    ends. *)
Theorem capture_errors_are_displayed
    (w : surroundings) (f : frame) (e : exn) :
  guard (self f) (time_at_guard w) (last_speak_time f) = true ->
  exn_cls e = OtherException ->
  (listen w = Raised e ->
   loop_body w f =
   (logged f [Clock (time_at_guard w); Listen;
              UpdateUI ("An error occurred: " ++ exn_str e) ""],
    update_ui_error w)) /\
  (forall u, listen w = Returned u -> recognize_google w = Raised e ->
   loop_body w f =
   (logged f [Clock (time_at_guard w); Listen; Recognize;
              UpdateUI ("An error occurred: " ++ exn_str e) ""],
    update_ui_error w)).
Proof.
  intros Hg He. split.
  - intros Hl. open_pass. rewrite Hg, Hl. cbn. rewrite He. cbn.
    now rewrite <- !app_assoc.
  - intros u Hl Hr. open_pass. rewrite Hg, Hl, Hr. cbn. rewrite He. cbn.
    now rewrite <- !app_assoc.
Qed.

Lemma capture_errors_are_displayed_witness :
  let f := Samples.start Samples.listening 0 in
  loop_body (Scenes.recogniser_down 10) f =
  (logged f [Clock 10; Listen; Recognize;
             UpdateUI "An error occurred: Connection error." ""],
   Returned tt).
Proof.
  cbv zeta.
  destruct (capture_errors_are_displayed (Scenes.recogniser_down 10)
              (Samples.start Samples.listening 0) Samples.ConnectionError
              eq_refl eq_refl) as [_ H].
  exact (H tt eq_refl eq_refl).
Defined.

(** X11.  A transcript the classifier rejects is dropped: nothing goes to
    the display surface or to the answer service, the pass ends normally,
    and the state and [last_speak_time] are unchanged, so no cooldown
    starts. *)
Theorem other_speech_is_dropped
    (w : surroundings) (f : frame) (u : unit) (text : string) :
  guard (self f) (time_at_guard w) (last_speak_time f) = true ->
  listen w = Returned u ->
  recognize_google w = Returned text ->
  is_question text = false ->
  loop_body w f =
  (logged f [Clock (time_at_guard w); Listen; Recognize], Returned tt).
Proof.
  intros Hg Hl Hr Hq. open_pass. rewrite Hg, Hl, Hr. cbn. rewrite Hq. cbn.
  now rewrite <- !app_assoc.
Qed.

Lemma other_speech_is_dropped_witness :
  let w := Samples.asked "I like dogs" 10 11 in
  let f := Samples.start Samples.listening 0 in
  loop_body w f = (logged f [Clock 10; Listen; Recognize], Returned tt).
Proof.
  cbv zeta.
  apply (other_speech_is_dropped (Samples.asked "I like dogs" 10 11)
           (Samples.start Samples.listening 0) tt "I like dogs");
    reflexivity.
Defined.

(** ** The calls to the answer service *)


(** X12.  [get_ai_response] calls nothing but the chat service, the speech
    service and [print]; it asks the chat service at most once and the speech
    service at most once; without a client it asks neither, and with voice
    output off it does not ask the speech service. *)
Theorem answer_service_calls (w : surroundings) (q : string) (f : frame) :
  exists evs r,
    get_ai_response w q f = (logged f evs, r) /\
    forallb Reading.is_service_event evs = true /\
    (Reading.count Reading.is_chat_request evs <= 1)%nat /\
    (Reading.count Reading.is_speech_request evs <= 1)%nat /\
    (client (self f) = None -> Reading.count Reading.is_answer_request evs = 0%nat) /\
    (tts_enabled (self f) = false ->
     Reading.count Reading.is_speech_request evs = 0%nat).
Proof.
  destruct (answer_events w q f) as (evs & r & H1 & H2 & H3 & H4 & H5 & H6 & _).
  exists evs, r. auto 10.
Qed.

(** X13.  When the round trip succeeds, the answer text is the content of
    the first choice with surrounding white space stripped, whatever other
    choices follow; the speech service is asked exactly when voice output is
    on, for that stripped text, and the audio of the answer is then the
    base64 form of what it returned, and [None] otherwise. *)
Theorem successful_round_trip
    (w : surroundings) (q : string) (f : frame)
    (c : OpenAI) (content : string) (cs : list (option string)) :
  client (self f) = Some c ->
  chat_completions w q = Returned (Some content :: cs) ->
  (tts_enabled (self f) = false ->
   get_ai_response w q f =
   (logged f [ChatRequest q],
    Returned (Json.dumps_answer (strip content) None))) /\
  (forall bytes,
     tts_enabled (self f) = true ->
     audio_speech w (strip content) = Returned bytes ->
     get_ai_response w q f =
     (logged f [ChatRequest q; SpeechRequest (strip content)],
      Returned (Json.dumps_answer (strip content)
                  (Some (Base64.b64encode bytes))))).
Proof.
  intros Hc Hchat.
  unfold get_ai_response, try_except, bind, get_self, external, raise, ret, logged.
  cbn. rewrite Hc. cbn. rewrite Hchat. cbn. split.
  - intros ->. reflexivity.
  - intros bytes -> Hs. cbn. rewrite Hs. cbn. now rewrite <- app_assoc.
Qed.

Lemma successful_round_trip_witness :
  let w := Samples.asked "are you there" 10 11 in
  let f := Samples.start Samples.listening 0 in
  get_ai_response w "Are you there?" f =
  (logged f [ChatRequest "Are you there?"; SpeechRequest "I am here."],
   Returned (Json.dumps_answer "I am here." (Some "TWE="))).
Proof.
  cbv zeta.
  destruct (successful_round_trip (Samples.asked "are you there" 10 11)
              "Are you there?" (Samples.start Samples.listening 0)
              (OpenAI_client (Some "sk-test")) " I am here. " []
              eq_refl eq_refl) as [_ H].
  exact (H [Byte.x4d; Byte.x61] eq_refl eq_refl).
Defined.

(** ** A pass that answers *)

Lemma service_events_are_quiet (evs : list event) :
  forallb Reading.is_service_event evs = true ->
  Reading.count is_listen evs = 0%nat /\
  Reading.count Reading.is_recognize evs = 0%nat /\
  Reading.count Reading.is_update_ui evs = 0%nat.
Proof.
  unfold Reading.count. induction evs as [ | ev evs IH]; cbn.
  - auto.
  - intros H. apply andb_true_iff in H as [Hev Hevs].
    destruct ev; cbn in *; try discriminate; auto.
Qed.



(** X15.  A pass handles at most one utterance: it listens at most once,
    calls the recogniser at most once, asks the chat service at most once and
    the speech service at most once. *)
Theorem one_utterance_per_pass (w : surroundings) (f : frame) :
  log f = [] ->
  let evs := log (fst (loop_body w f)) in
  (Reading.count is_listen evs <= 1)%nat /\
  (Reading.count Reading.is_recognize evs <= 1)%nat /\
  (Reading.count Reading.is_chat_request evs <= 1)%nat /\
  (Reading.count Reading.is_speech_request evs <= 1)%nat.
Proof.
  intros Hlog. cbv zeta.
  destruct (guard (self f) (time_at_guard w) (last_speak_time f)) eqn:Hg.
  2: { rewrite (pass_suppressed _ _ Hg). cbn. rewrite Hlog. cbn.
       unfold Reading.count. cbn. lia. }
  open_pass. rewrite Hg, Hlog. cbn.
  destruct (listen w) as [u | e]; cbn.
  2: { destruct (exn_cls e); cbn; unfold Reading.count; cbn; lia. }
  destruct (recognize_google w) as [text | e]; cbn.
  2: { destruct (exn_cls e); cbn; unfold Reading.count; cbn; lia. }
  destruct (is_question text); cbn; [ | unfold Reading.count; cbn; lia].
  destruct (Normalize.capitalized_text text) as [q | e]; cbn.
  2: { destruct (exn_cls e); cbn; unfold Reading.count; cbn; lia. }
  destruct (update_ui_question w) as [u' | e]; cbn.
  2: { destruct (exn_cls e); cbn; unfold Reading.count; cbn; lia. }
  match goal with
  | |- context [get_ai_response ?w ?q ?f] =>
      destruct (answer_events w q f) as (evs & r & -> & Hev & Hc & Hs & _)
  end.
  destruct (service_events_are_quiet evs Hev) as (Q1 & Q2 & _).
  unfold Reading.count in *.
  destruct r as [r | ex]; cbn.
  - destruct (update_ui_answer w) as [u'' | e]; cbn; [ | destruct (exn_cls e); cbn];
      rewrite ?filter_app, ?length_app; cbn; lia.
  - destruct (exn_cls ex); cbn; rewrite ?filter_app, ?length_app; cbn; lia.
Qed.

Lemma one_utterance_per_pass_witness :
  let evs := log (fst (loop_body (Samples.asked "are you there" 10 11)
                         (Samples.start Samples.listening 0))) in
  (Reading.count is_listen evs <= 1)%nat /\
  (Reading.count Reading.is_recognize evs <= 1)%nat /\
  (Reading.count Reading.is_chat_request evs <= 1)%nat /\
  (Reading.count Reading.is_speech_request evs <= 1)%nat.
Proof.
  exact (one_utterance_per_pass (Samples.asked "are you there" 10 11)
           (Samples.start Samples.listening 0) eq_refl).
Defined.

(** ** The suppression flags *)

Lemma round_trip_fails_speaking
    (b : bool) (s : AudioAssistant) (w : surroundings) (q : string) (e : exn) :
  round_trip_fails (set_is_speaking b s) w q e -> round_trip_fails s w q e.
Proof.
  intros H.
  destruct H as [Hc | c e Hc Hchat | c Hc Hchat | c cs Hc Hchat
                 | c content cs e Hc Hchat Htts Hspeech]; cbn in *.
  - now apply no_client.
  - now apply (chat_raises s w q c).
  - now apply (no_choice s w q c).
  - now apply (no_content s w q c cs).
  - now apply (speech_raises s w q c content cs).
Qed.

(** X16.  The loop itself leaves [is_speaking] set in two cases only: a
    pass that starts with the flag false and ends with it true heard a
    question, and either the round trip to the answer service failed and the
    [print] of [get_ai_response] raised, or the display surface raised on the
    answer. *)
Theorem speaking_stays_on_only_after_failure
    (w : surroundings) (f : frame) :
  is_speaking (self f) = false ->
  is_speaking (self (fst (loop_body w f))) = true ->
  exists text q,
    recognize_google w = Returned text /\
    is_question text = true /\
    Normalize.capitalized_text text = Returned q /\
    ((exists e e0, print_line w = Raised e /\ round_trip_fails (self f) w q e0) \/
     (exists e, update_ui_answer w = Raised e)).
Proof.
  intros Hs.
  destruct (guard (self f) (time_at_guard w) (last_speak_time f)) eqn:Hg.
  2: { rewrite (pass_suppressed _ _ Hg). cbn. congruence. }
  open_pass. rewrite Hg. cbn.
  destruct (listen w) as [u | e]; cbn.
  2: { destruct (exn_cls e); cbn; congruence. }
  destruct (recognize_google w) as [text | e]; cbn.
  2: { destruct (exn_cls e); cbn; congruence. }
  destruct (is_question text) eqn:Hq; cbn; [ | congruence].
  destruct (Normalize.capitalized_text text) as [q | e] eqn:Hcap; cbn.
  2: { destruct (exn_cls e); cbn; congruence. }
  destruct (update_ui_question w) as [u' | e]; cbn.
  2: { destruct (exn_cls e); cbn; congruence. }
  match goal with
  | |- context [get_ai_response ?w ?q ?g] =>
      destruct (answer_events w q g) as (evs & r & -> & _ & _ & _ & _ & _ & Hr)
  end.
  destruct r as [r | ex]; cbn.
  - destruct (update_ui_answer w) as [u'' | e]; cbn; [discriminate | ].
    intros _. exists text, q.
    split; [reflexivity | ]. split; [exact Hq | ]. split; [exact Hcap | ].
    right. now exists e.
  - intros _. exists text, q.
    split; [reflexivity | ]. split; [exact Hq | ]. split; [exact Hcap | ].
    left.
    destruct (Hr ex eq_refl) as (Hp & e0 & He0). cbn in He0.
    exists ex, e0. split; [exact Hp | ].
    exact (round_trip_fails_speaking true (self f) w q e0 He0).
Qed.

Lemma speaking_stays_on_only_after_failure_witness :
  let w := Scenes.print_fails (Samples.chat_down "are you there" 10 11) in
  exists text q,
    recognize_google w = Returned text /\
    is_question text = true /\
    Normalize.capitalized_text text = Returned q /\
    ((exists e e0,
        print_line w = Raised e /\
        round_trip_fails (self (Samples.start Samples.listening 0)) w q e0) \/
     (exists e, update_ui_answer w = Raised e)).
Proof.
  cbv zeta.
  apply (speaking_stays_on_only_after_failure
           (Scenes.print_fails (Samples.chat_down "are you there" 10 11))
           (Samples.start Samples.listening 0)); reflexivity.
Defined.

Lemma call_keeps_playing (c : call) (s : AudioAssistant) :
  audio_playing s = true ->
  c <> audio_playback_ended ->
  audio_playing (state_after c s) = true.
Proof.
  intros Hs H. unfold state_after, exposed.
  destruct c as [ | k [e | ] | | | | | | ]; cbn; try assumption; try congruence.
  - unfold Assistant.toggle_listening. destruct (client s); cbn; assumption.
  - unfold Assistant.delete_api_key. cbn. destruct (config_json s); assumption.
Qed.

Lemma calls_keep_playing (cs : list call) (s : AudioAssistant) :
  audio_playing s = true ->
  ~ In audio_playback_ended cs ->
  audio_playing (after_calls cs s) = true.
Proof.
  revert s. induction cs as [ | c cs IH]; intros s Hs H; cbn.
  - assumption.
  - apply IH.
    + apply call_keeps_playing; [assumption | ]. intros ->. cbn in H. tauto.
    + cbn in H. tauto.
Qed.

Lemma run_while_playing (ws : list surroundings) (s : AudioAssistant) (last : Q) :
  audio_playing s = true ->
  (forall w, In w ws -> ~ In audio_playback_ended (calls_before w)) ->
  forall p, In p (run ws s last) ->
    log (p_end p) = [Clock (time_at_guard (p_world p)); Sleep (1 # 10)] /\
    last_speak_time (p_end p) = last.
Proof.
  revert s last. induction ws as [ | w ws IH]; intros s last Hs Hq p; cbn [run].
  - intros [].
  - destruct (is_listening (after_calls (calls_before w) s)); [ | intros []].
    set (f0 := {| self := after_calls (calls_before w) s; last_speak_time := last; log := [] |}).
    assert (audio_playing (self f0) = true) as Hs0.
    { apply calls_keep_playing; [assumption | ]. apply (Hq w). now left. }
    assert (guard (self f0) (time_at_guard w) (last_speak_time f0) = false) as Hg.
    { apply guard_false. right. now left. }
    rewrite (pass_suppressed _ _ Hg). cbn [fst snd].
    intros [<- | Hp].
    + split; reflexivity.
    + apply (IH _ _ Hs0) in Hp; [assumption | ].
      intros w' Hw'. apply Hq. now right.
Qed.

(** X17.  The loop never clears [audio_playing]: once the front end has
    reported that playback started, every pass only reads the clock and
    sleeps 0.1 second, whatever time goes by, until the front end calls
    [audio_playback_ended]. *)
Theorem loop_waits_for_playback_end (ws : list surroundings) (s : AudioAssistant) :
  audio_playing s = true ->
  (forall w, In w ws -> ~ In audio_playback_ended (calls_before w)) ->
  forall p, In p (listen_and_process ws s) ->
    log (p_end p) = [Clock (time_at_guard (p_world p)); Sleep (1 # 10)] /\
    last_speak_time (p_end p) = 0.
Proof.
  intros Hs Hq p Hp. exact (run_while_playing ws s 0 Hs Hq p Hp).
Qed.

Lemma loop_waits_for_playback_end_witness :
  exists p1 p2,
    listen_and_process
      [Samples.asked "are you there" 10 11;
       Samples.with_calls [speaking_ended] (Samples.asked "what now" 1000 1001)]
      (state_after audio_playback_started Samples.listening) = [p1; p2] /\
    log (p_end p1) = [Clock 10; Sleep (1 # 10)] /\
    log (p_end p2) = [Clock 1000; Sleep (1 # 10)].
Proof.
  do 2 eexists. split; [vm_compute; reflexivity | ].
  assert (forall w,
            In w [Samples.asked "are you there" 10 11;
                  Samples.with_calls [speaking_ended]
                    (Samples.asked "what now" 1000 1001)] ->
            ~ In audio_playback_ended (calls_before w)) as Hq.
  { intros w [<- | [<- | []]]; cbn.
    - tauto.
    - intros [H | []]. discriminate. }
  split.
  - eapply (loop_waits_for_playback_end _
              (state_after audio_playback_started Samples.listening) eq_refl Hq).
    left. reflexivity.
  - eapply (loop_waits_for_playback_end _
              (state_after audio_playback_started Samples.listening) eq_refl Hq).
    right. left. reflexivity.
Defined.

(** X24.  When the display surface raises on the question line, the pass
    stops there: [is_speaking] is not set, the answer service is not asked,
    [last_speak_time] is unchanged, and the exception is handled like any
    other: in silence for the recogniser's two classes, with an error line
    otherwise. *)
Theorem refused_question_asks_nothing
    (w : surroundings) (f : frame) (u : unit) (text : string) (e : exn) :
  guard (self f) (time_at_guard w) (last_speak_time f) = true ->
  listen w = Returned u ->
  recognize_google w = Returned text ->
  is_question text = true ->
  update_ui_question w = Raised e ->
  exists q,
    Normalize.capitalized_text text = Returned q /\
    loop_body w f =
    match exn_cls e with
    | OtherException =>
        (logged f [Clock (time_at_guard w); Listen; Recognize;
                   UpdateUI ("Q: " ++ q) "";
                   UpdateUI ("An error occurred: " ++ exn_str e) ""],
         update_ui_error w)
    | _ =>
        (logged f [Clock (time_at_guard w); Listen; Recognize;
                   UpdateUI ("Q: " ++ q) ""],
         Returned tt)
    end.
Proof.
  intros Hg Hl Hr Hq Hu.
  destruct (capitalized_text_returns text Hq) as [q Hcap].
  exists q. split; [exact Hcap | ].
  open_pass. rewrite Hg, Hl, Hr. cbn. rewrite Hq. cbn.
  rewrite Hcap. cbn. rewrite Hu. cbn.
  destruct (exn_cls e); cbn; now rewrite <- !app_assoc.
Qed.

Lemma refused_question_asks_nothing_witness :
  let w := {| calls_before := []; time_at_guard := 10;
              listen := Returned tt;
              recognize_google := Returned "why";
              update_ui_question := Raised Samples.ConnectionError;
              chat_completions := fun _ => Returned [Some "because"];
              audio_speech := fun _ => Returned [];
              print_line := Returned tt;
              update_ui_answer := Returned tt; time_at_end := 11;
              update_ui_error := Returned tt |} in
  let f := Samples.start Samples.listening 0 in
  exists q,
    Normalize.capitalized_text "why" = Returned q /\
    loop_body w f =
    (logged f [Clock 10; Listen; Recognize; UpdateUI ("Q: " ++ q) "";
               UpdateUI "An error occurred: Connection error." ""],
     Returned tt).
Proof.
  cbv zeta.
  exact (refused_question_asks_nothing
           {| calls_before := []; time_at_guard := 10;
              listen := Returned tt;
              recognize_google := Returned "why";
              update_ui_question := Raised Samples.ConnectionError;
              chat_completions := fun _ => Returned [Some "because"];
              audio_speech := fun _ => Returned [];
              print_line := Returned tt;
              update_ui_answer := Returned tt; time_at_end := 11;
              update_ui_error := Returned tt |}
           (Samples.start Samples.listening 0) tt "why" Samples.ConnectionError
           eq_refl eq_refl eq_refl eq_refl eq_refl).
Defined.

End ControllerFacts.

(** * Further properties of the code *)

(** ** The facade *)

Section FacadeFacts.
Import Reading.

Lemma set_is_listening_back (b : bool) (s : AudioAssistant) :
  set_is_listening (is_listening s) (set_is_listening b s) = s.
Proof. now destruct s. Qed.

(** X1.  A key saved with success is found again: [set_api_key] stores it in
    the attribute, in a new client and in config.json, and an assistant
    constructed from that file has the same key and an equal client, and is
    not listening. *)
Theorem saved_key_is_loaded_again (k : option string) (s : AudioAssistant) :
  let s' := fst (Assistant.set_api_key k None s) in
  snd (Assistant.set_api_key k None s) = Returned tt /\
  api_key s' = k /\
  client s' = Some (OpenAI_client k) /\
  config_json s' = Some k /\
  exists s'',
    Assistant.init (config_json s') None = Returned s'' /\
    api_key s'' = k /\
    client s'' = Some (OpenAI_client k) /\
    config_json s'' = Some k /\
    is_listening s'' = false.
Proof.
  cbn. repeat split.
  eexists. split; [reflexivity | ]. cbn. repeat split.
Qed.

(** X2.  [delete_api_key] removes the key, the client and config.json, and
    leaves [is_listening] as it was.  After it [toggle_listening] returns
    false and changes nothing, so a loop that is running cannot be switched
    off; and an assistant constructed afterwards starts without key. *)
Theorem deleted_key_is_gone (s : AudioAssistant) :
  let s' := Assistant.delete_api_key s in
  Assistant.has_api_key s' = false /\
  client s' = None /\
  config_json s' = None /\
  is_listening s' = is_listening s /\
  Assistant.t_state (Assistant.toggle_listening s') = s' /\
  Assistant.t_returned (Assistant.toggle_listening s') = false /\
  Assistant.t_thread_started (Assistant.toggle_listening s') = false /\
  forall ctor, Assistant.init (config_json s') ctor = Returned (Assistant.fresh None).
Proof.
  unfold Assistant.delete_api_key, Assistant.toggle_listening, Assistant.has_api_key.
  cbn. destruct (config_json s) eqn:Hf; cbn; rewrite ?Hf; repeat split.
Qed.


(** X4.  With a client, two calls of [toggle_listening] bring the state
    back; the two calls return opposite values, and exactly the one that
    returns True starts a loop thread. *)
Theorem toggle_listening_twice (s : AudioAssistant) (c : OpenAI) :
  client s = Some c ->
  let r1 := Assistant.toggle_listening s in
  let r2 := Assistant.toggle_listening (Assistant.t_state r1) in
  Assistant.t_state r2 = s /\
  Assistant.t_returned r1 = negb (is_listening s) /\
  Assistant.t_returned r2 = is_listening s /\
  Assistant.t_thread_started r1 = Assistant.t_returned r1 /\
  Assistant.t_thread_started r2 = Assistant.t_returned r2.
Proof.
  intros Hc. unfold Assistant.toggle_listening. rewrite Hc. cbn. rewrite Hc. cbn.
  rewrite negb_involutive. repeat split.
  apply set_is_listening_back.
Qed.

Lemma toggle_listening_twice_witness :
  let s := Samples.listening in
  let r1 := Assistant.toggle_listening s in
  let r2 := Assistant.toggle_listening (Assistant.t_state r1) in
  Assistant.t_state r2 = s /\
  Assistant.t_returned r1 = false /\
  Assistant.t_returned r2 = true /\
  Assistant.t_thread_started r1 = false /\
  Assistant.t_thread_started r2 = true.
Proof.
  cbv zeta.
  destruct (toggle_listening_twice Samples.listening
              (OpenAI_client (Some "sk-test")) eq_refl)
    as (H1 & H2 & H3 & H4 & H5).
  split; [exact H1 | ]. repeat split.
Defined.

(** X5.  Only [toggle_listening] changes [is_listening] or starts a loop
    thread, and only [save_api_key] and [delete_api_key] change the key, the
    client or config.json. *)
Theorem calls_change_only_their_part (c : call) (s : AudioAssistant) :
  (c <> toggle_listening ->
   is_listening (state_after c s) = is_listening s /\ starts_thread c s = false) /\
  ((forall k ctor, c <> save_api_key k ctor) -> c <> delete_api_key ->
   api_key (state_after c s) = api_key s /\
   client (state_after c s) = client s /\
   config_json (state_after c s) = config_json s).
Proof.
  unfold state_after, starts_thread, exposed. split.
  - intros Hc. destruct c as [ | k [e | ] | | | | | | ]; cbn; auto;
      try congruence.
    unfold Assistant.delete_api_key. cbn. destruct (config_json s); auto.
  - intros Hs Hd. destruct c as [ | k ctor | | | | | | ]; cbn; auto;
      try congruence.
    unfold Assistant.toggle_listening. destruct (client s) eqn:E; cbn; auto.
Qed.

Lemma calls_change_only_their_part_witness :
  is_listening (state_after delete_api_key Samples.listening) = true /\
  starts_thread delete_api_key Samples.listening = false /\
  client (state_after audio_playback_ended Samples.listening)
    = Some (OpenAI_client (Some "sk-test")).
Proof.
  split; [ | split].
  - apply (proj1 (calls_change_only_their_part delete_api_key Samples.listening)).
    discriminate.
  - apply (proj1 (calls_change_only_their_part delete_api_key Samples.listening)).
    discriminate.
  - apply (proj2 (calls_change_only_their_part audio_playback_ended Samples.listening));
      discriminate.
Defined.

(** X6.  After [set_api_key(None)], which [load_api_key] calls when
    config.json holds no key, [has_api_key] is false whatever the constructor
    does, while the client is missing only if it was missing before and the
    constructor raised.  So the guard of [toggle_listening] and
    [has_api_key] can disagree. *)
Theorem key_and_client_can_disagree (ctor : option exn) (s : AudioAssistant) :
  let s' := fst (Assistant.set_api_key None ctor s) in
  Assistant.has_api_key s' = false /\
  (client s' = None <-> client s = None /\ ctor <> None) /\
  (client s' <> None ->
   Assistant.t_returned (Assistant.toggle_listening s') = negb (is_listening s)).
Proof.
  unfold Assistant.toggle_listening.
  destruct ctor as [e | ]; cbn.
  - split; [reflexivity | ]. split.
    + split; [intros H; split; [exact H | discriminate] | tauto].
    + intros H. destruct (client s); [reflexivity | congruence].
  - split; [reflexivity | ]. split.
    + split; [discriminate | intros [_ H]; congruence].
    + reflexivity.
Qed.

Lemma key_and_client_can_disagree_witness :
  let s' := fst (Assistant.set_api_key None None (Assistant.fresh (Some None))) in
  Assistant.has_api_key s' = false /\
  Assistant.t_returned (Assistant.toggle_listening s') = true.
Proof.
  cbv zeta.
  destruct (key_and_client_can_disagree None (Assistant.fresh (Some None)))
    as (H1 & _ & H3).
  split; [exact H1 | ]. apply H3. discriminate.
Defined.

End FacadeFacts.

(** ** Texts *)

Section TextFacts.
Import Py Classifier Reading.

Lemma append_empty (s : string) : s ++ "" = s.
Proof. induction s as [ | c s IH]; cbn; [reflexivity | now rewrite IH]. Qed.

Lemma append_assoc (a b c : string) : (a ++ b) ++ c = a ++ (b ++ c).
Proof. induction a as [ | x a IH]; cbn; [reflexivity | now rewrite IH]. Qed.

Lemma rev_onto_append (s acc : string) : rev_onto s acc = rev s ++ acc.
Proof.
  unfold rev. revert acc. induction s as [ | c s IH]; intros acc; cbn.
  - reflexivity.
  - rewrite (IH (String c acc)), (IH (String c "")), append_assoc. reflexivity.
Qed.

Lemma rev_cons (c : ascii) (s : string) : rev (String c s) = rev s ++ String c "".
Proof. unfold rev at 1. cbn. apply rev_onto_append. Qed.

Lemma rev_append (a b : string) : rev (a ++ b) = rev b ++ rev a.
Proof.
  induction a as [ | c a IH]; cbn [append].
  - now rewrite append_empty.
  - now rewrite !rev_cons, IH, append_assoc.
Qed.

Lemma rev_rev (s : string) : rev (rev s) = s.
Proof.
  induction s as [ | c s IH]; [reflexivity | ].
  now rewrite rev_cons, rev_append, IH.
Qed.

Lemma lower_append (a b : string) : lower (a ++ b) = lower a ++ lower b.
Proof. induction a as [ | c a IH]; cbn; [reflexivity | now rewrite IH]. Qed.

Lemma isspace_lower_char (c : ascii) : isspace (lower_char c) = isspace c.
Proof. destruct c as [[] [] [] [] [] [] [] []]; vm_compute; reflexivity. Qed.

Lemma lower_char_twice (c : ascii) : lower_char (lower_char c) = lower_char c.
Proof. destruct c as [[] [] [] [] [] [] [] []]; vm_compute; reflexivity. Qed.

Lemma lower_twice (s : string) : lower (lower s) = lower s.
Proof.
  induction s as [ | c s IH]; cbn; [reflexivity | ].
  now rewrite lower_char_twice, IH.
Qed.

Lemma all_space_lower (s : string) : all_space (lower s) = all_space s.
Proof.
  induction s as [ | c s IH]; cbn; [reflexivity | ].
  now rewrite isspace_lower_char, IH.
Qed.

Lemma all_space_append (a b : string) :
  all_space (a ++ b) = all_space a && all_space b.
Proof.
  induction a as [ | c a IH]; cbn; [reflexivity | ].
  now rewrite IH, andb_assoc.
Qed.

Lemma all_space_rev (s : string) : all_space (rev s) = all_space s.
Proof.
  induction s as [ | c s IH]; [reflexivity | ].
  rewrite rev_cons, all_space_append, IH. cbn.
  rewrite andb_true_r. apply andb_comm.
Qed.

Lemma lstrip_margin (pre s : string) :
  all_space pre = true -> lstrip (pre ++ s) = lstrip s.
Proof.
  induction pre as [ | c pre IH]; cbn; [reflexivity | ].
  intros H. apply andb_true_iff in H as [-> H]. auto.
Qed.

Lemma lstrip_all_space (s : string) : all_space s = true -> lstrip s = "".
Proof.
  intros H. rewrite <- (append_empty s). now rewrite lstrip_margin.
Qed.

Lemma rstrip_margin (s post : string) :
  all_space post = true -> rstrip (s ++ post) = rstrip s.
Proof.
  intros H. unfold rstrip. rewrite rev_append, lstrip_margin; [reflexivity | ].
  now rewrite all_space_rev.
Qed.

Lemma strip_margins (pre s post : string) :
  all_space pre = true -> all_space post = true ->
  strip (pre ++ s ++ post) = strip s.
Proof.
  intros Hpre Hpost. unfold strip. rewrite (lstrip_margin pre _ Hpre).
  clear pre Hpre. induction s as [ | c s IH]; cbn.
  - now rewrite (lstrip_all_space post Hpost).
  - destruct (isspace c); [exact IH | ].
    change (String c (s ++ post)) with (String c s ++ post).
    now apply rstrip_margin.
Qed.

Lemma normalized_margins (pre t post : string) :
  all_space pre = true -> all_space post = true ->
  normalized (pre ++ t ++ post) = normalized t.
Proof.
  intros Hpre Hpost. unfold normalized.
  rewrite !lower_append. apply strip_margins; now rewrite all_space_lower.
Qed.

(** X18.  The classifier looks at neither the case of the letters nor the
    white space around the text: a text, the text in lower case, and the text
    between margins of white space are classified alike. *)
Theorem classifier_ignores_case_and_margins (pre t post : string) :
  all_space pre = true -> all_space post = true ->
  is_question (pre ++ t ++ post) = is_question t /\
  is_question (lower t) = is_question t.
Proof.
  intros Hpre Hpost. unfold is_question. split.
  - now rewrite (normalized_margins pre t post Hpre Hpost).
  - unfold normalized. now rewrite lower_twice.
Qed.

Lemma classifier_ignores_case_and_margins_witness :
  is_question (String "009" " " ++ "WHAT now" ++ String "010" "")
    = is_question "WHAT now" /\
  is_question (lower "WHAT now") = is_question "WHAT now".
Proof.
  apply (classifier_ignores_case_and_margins
           (String "009" " ") "WHAT now" (String "010" "")); reflexivity.
Defined.

(** X19.  A text of white space only, the empty text included, is no
    question. *)
Theorem blank_text_is_no_question (t : string) :
  all_space t = true -> is_question t = false.
Proof.
  intros H.
  pose proof (classifier_blank := normalized_margins t "" "" H eq_refl).
  cbn [append] in classifier_blank. rewrite append_empty in classifier_blank.
  unfold is_question. rewrite classifier_blank. reflexivity.
Qed.

Lemma blank_text_is_no_question_witness :
  is_question (String "009" "   ") = false.
Proof. apply blank_text_is_no_question. reflexivity. Defined.

Lemma prefix_empty (s : string) : String.prefix "" s = true.
Proof. now destruct s. Qed.

Lemma prefix_append (p s : string) : String.prefix p (p ++ s) = true.
Proof.
  induction p as [ | c p IH]; cbn.
  - apply prefix_empty.
  - destruct (ascii_dec c c); [exact IH | congruence].
Qed.

Lemma contains_middle (x m y : string) : contains (x ++ m ++ y) m = true.
Proof.
  induction x as [ | c x IH]; cbn [append].
  - destruct (m ++ y) eqn:E; cbn [contains]; rewrite <- E, prefix_append; reflexivity.
  - cbn [contains]. rewrite IH. apply orb_true_r.
Qed.

Lemma solid_ends_split (m : string) :
  solid_ends m = true ->
  exists c r init d,
    m = String c r /\ m = init ++ String d "" /\
    isspace c = false /\ isspace d = false.
Proof.
  unfold solid_ends. destruct m as [ | c r]; [discriminate | ].
  destruct (rev (String c r)) as [ | d r'] eqn:E; [discriminate | ].
  intros H. apply andb_true_iff in H as [Hc Hd].
  apply negb_true_iff in Hc. apply negb_true_iff in Hd.
  exists c, r, (rev r'), d. repeat split; try assumption.
  rewrite <- (rev_rev (String c r)), E. apply rev_cons.
Qed.

Lemma lstrip_solid (u : string) (c : ascii) (r : string) :
  isspace c = false ->
  exists x, lstrip (u ++ String c r) = x ++ String c r /\
            (all_space u = true -> x = "").
Proof.
  intros Hc. induction u as [ | a u IH]; cbn.
  - exists "". rewrite Hc. auto.
  - destruct (isspace a) eqn:Ha; cbn.
    + exact IH.
    + exists (String a u). split; [reflexivity | discriminate].
Qed.

Lemma rstrip_solid (a : string) (d : ascii) (v : string) :
  isspace d = false ->
  exists y, rstrip (a ++ String d v) = a ++ String d y /\
            (all_space v = true -> y = "").
Proof.
  intros Hd. unfold rstrip.
  rewrite rev_append, rev_cons, append_assoc. cbn [append].
  destruct (lstrip_solid (rev v) d (rev a) Hd) as (x & -> & Hx).
  exists (rev x). split.
  - rewrite rev_append, rev_cons, rev_rev, append_assoc. reflexivity.
  - intros Hv. rewrite Hx; [reflexivity | now rewrite all_space_rev].
Qed.

(** [strip] keeps a part with solid ends, and what is before it when that
    is not white space only. *)
Lemma strip_keeps_solid (u m v : string) :
  solid_ends m = true ->
  exists x y,
    strip (u ++ m ++ v) = x ++ m ++ y /\
    (all_space u = true -> x = "") /\
    (all_space v = true -> y = "").
Proof.
  intros Hm.
  destruct (solid_ends_split m Hm) as (c & r & init & d & E1 & E2 & Hc & Hd).
  unfold strip.
  destruct (lstrip_solid u c (r ++ v) Hc) as (x & Hx & Hx0).
  assert (u ++ m ++ v = u ++ String c (r ++ v)) as -> by now rewrite E1.
  rewrite Hx.
  assert (x ++ String c (r ++ v) = (x ++ init) ++ String d v) as ->.
  { change (String c (r ++ v)) with (String c r ++ v).
    rewrite <- E1, E2, !append_assoc. reflexivity. }
  destruct (rstrip_solid (x ++ init) d v Hd) as (y & -> & Hy0).
  exists x, y. split; [ | auto].
  change (String d y) with (String d "" ++ y).
  rewrite !append_assoc, <- (append_assoc init), <- E2. reflexivity.
Qed.

Lemma starters_are_solid (w : string) :
  In w question_starters -> solid_ends w = true /\ lower w = w.
Proof.
  unfold question_starters.
  intros H; repeat (destruct H as [<- | H]; [split; reflexivity | ]).
  destruct H.
Qed.

Lemma phrases_are_solid (ph : string) :
  In ph question_phrases -> solid_ends ph = true /\ lower ph = ph.
Proof.
  unfold question_phrases.
  intros H; repeat (destruct H as [<- | H]; [split; reflexivity | ]).
  destruct H.
Qed.

(** X20.  A text that ends with a question mark, followed at most by white
    space, is a question, whatever stands before the mark. *)
Theorem question_mark_makes_a_question (t post : string) :
  all_space post = true ->
  is_question (t ++ "?" ++ post) = true.
Proof.
  intros Hpost. unfold is_question, normalized.
  rewrite !lower_append. change (lower "?") with "?".
  destruct (strip_keeps_solid (lower t) "?" (lower post) eq_refl)
    as (x & y & -> & _ & Hy).
  rewrite Hy by now rewrite all_space_lower.
  assert (rule_mark (x ++ "?" ++ "") = true) as ->.
  { unfold rule_mark, endswith. rewrite rev_append.
    change (rev ("?" ++ "")) with "?". change (rev "?") with "?".
    apply (prefix_append "?"). }
  now destruct (rule_starter _).
Qed.

Lemma question_mark_makes_a_question_witness :
  is_question ("the sky" ++ "?" ++ " ") = true.
Proof. apply question_mark_makes_a_question. reflexivity. Defined.

(** X21.  A text whose first letters, after white space and in any case,
    spell one of the starter words is a question, whatever follows them: the
    starter rule asks for no word boundary. *)
Theorem starter_letters_make_a_question (pre word rest w : string) :
  In w question_starters ->
  lower word = w ->
  all_space pre = true ->
  is_question (pre ++ word ++ rest) = true.
Proof.
  intros Hin Hw Hpre.
  destruct (starters_are_solid w Hin) as [Hsolid _].
  unfold is_question, normalized.
  rewrite !lower_append, Hw.
  destruct (strip_keeps_solid (lower pre) w (lower rest) Hsolid)
    as (x & y & -> & Hx & _).
  rewrite Hx by now rewrite all_space_lower.
  change ("" ++ w ++ y) with (w ++ y).
  assert (rule_starter (w ++ y) = true) as ->; [ | reflexivity].
  unfold rule_starter, any. apply existsb_exists.
  exists w. split; [exact Hin | ]. apply prefix_append.
Qed.

Lemma starter_letters_make_a_question_witness :
  is_question (" " ++ "Was" ++ "hington is a state") = true.
Proof.
  apply (starter_letters_make_a_question " " "Was" "hington is a state" "was").
  - unfold question_starters. cbn. tauto.
  - reflexivity.
  - reflexivity.
Defined.

(** X22.  A text that contains one of the question phrases, in any case and
    at any place, is a question. *)
Theorem phrase_makes_a_question (before phrase behind ph : string) :
  In ph question_phrases ->
  lower phrase = ph ->
  is_question (before ++ phrase ++ behind) = true.
Proof.
  intros Hin Hph.
  destruct (phrases_are_solid ph Hin) as [Hsolid _].
  unfold is_question, normalized.
  rewrite !lower_append, Hph.
  destruct (strip_keeps_solid (lower before) ph (lower behind) Hsolid)
    as (x & y & -> & _ & _).
  assert (rule_phrase (x ++ ph ++ y) = true) as ->.
  { unfold rule_phrase, any. apply existsb_exists.
    exists ph. split; [exact Hin | ]. apply contains_middle. }
  destruct (rule_starter _); [reflexivity | ].
  destruct (rule_mark _); [reflexivity | ].
  now destruct (re_match_inverted _).
Qed.

Lemma phrase_makes_a_question_witness :
  is_question ("please " ++ "Tell me ABOUT" ++ " dogs.") = true.
Proof.
  apply (phrase_makes_a_question "please " "Tell me ABOUT" " dogs." "tell me about").
  - unfold question_phrases. cbn. tauto.
  - reflexivity.
Defined.

Lemma endswith_mark_append (a b : string) :
  b <> "" -> endswith (a ++ b) "?" = endswith b "?".
Proof.
  intros Hb. unfold endswith. rewrite rev_append.
  destruct (rev b) as [ | d r'] eqn:E.
  - destruct Hb. now rewrite <- (rev_rev b), E.
  - change (rev "?") with "?". cbn [append prefix].
    destruct (ascii_dec "?" d); [ | reflexivity].
    now rewrite !prefix_empty.
Qed.

Lemma upper_char_mark (c : ascii) :
  endswith (upper_char c) "?" = endswith (String c "") "?".
Proof. destruct c as [[] [] [] [] [] [] [] []]; vm_compute; reflexivity. Qed.

Lemma capitalize_keeps_mark (c : ascii) (r : string) :
  endswith (upper_char c ++ r) "?" = endswith (String c r) "?".
Proof.
  destruct r as [ | x r].
  - rewrite append_empty. apply upper_char_mark.
  - rewrite endswith_mark_append by discriminate.
    change (String c (String x r)) with (String c "" ++ String x r).
    now rewrite endswith_mark_append by discriminate.
Qed.

(** X23.  For a text that is not empty and whose first character has its
    upper-case form in the alphabet of the model (every character but U+00B5
    and U+00FF), the normalised form is the text with its first character in
    upper case and the rest as it was, followed by a question mark exactly
    when the text does not end with one; so it always ends with a question
    mark. *)
Theorem normalised_question (c : ascii) (r : string) :
  upper_in_alphabet c = true ->
  let text := String c r in
  let q := upper_char c ++ r ++ (if endswith text "?" then "" else "?") in
  Normalize.capitalized_text text = Returned q /\
  endswith q "?" = true.
Proof.
  intros _. cbv zeta. unfold Normalize.capitalized_text, Normalize.capitalize,
    Normalize.ensure_mark.
  rewrite capitalize_keeps_mark.
  destruct (endswith (String c r) "?") eqn:E; cbn [negb].
  - rewrite append_empty. split; [reflexivity | ].
    now rewrite capitalize_keeps_mark.
  - rewrite <- append_assoc. split; [reflexivity | ].
    now rewrite endswith_mark_append by discriminate.
Qed.

Lemma normalised_question_witness :
  upper_in_alphabet "w" = true /\
  Normalize.capitalized_text "why not" = Returned "Why not?" /\
  endswith "Why not?" "?" = true.
Proof.
  split; [reflexivity | ].
  exact (normalised_question "w" "hy not" eq_refl).
Defined.

End TextFacts.
